(** * Side-scan sonar processing node (brov2_sonar_processing)

    A shallow embedding of [sonar_processing_node.py] and the properties of
    its pre-processing pipeline.

    Conventions of the embedding.
    - Python floats are real numbers; the one non-number the node itself
      manufactures, [np.nan], is a separate constructor of [pyfloat].
      Where a zero divisor would make numpy produce an infinity or a NaN
      that is then handed to [int], [math.floor] or [math.ceil], the model
      raises [NonFinite], as those conversions do.
    - In the loop of [slant_range_correction] the rounding of the machine
      decides which samples are read: at altitude 0 the exact bin of every
      sample is an integer, and [math.floor] and [math.ceil] are applied to
      the rounded quotient.  There every arithmetic operation is followed
      by [rnd], the rounding of a real number to a float.  [rnd] is a
      parameter, and what a property needs of it is a hypothesis of that
      property; overflow to an infinity is not modelled.  Elsewhere the
      arithmetic is that of the real numbers.
    - A sample channel is a sequence of floats.  [sonar_sub] and
      [slant_range_correction] build Python lists; [swath_normalization]
      belongs to another module and may return a list or a numpy array, so
      the one statement that tells them apart, the slice assignment of
      [blind_zone_removal], is modelled for both.  Slicing and (possibly
      negative) indexing follow Python's rules.
    - Functions of other modules ([swath_normalization], scipy's
      [griddata], the Julia [knn], pandas' [to_csv]) are parameters:
      functions of their arguments that return a value or raise.
    - The node is an explicit state record.  Swath objects live in a heap
      and the queue of unprocessed swaths holds references, because the
      source appends the object [self.current_swath] itself.
    - A callback runs in a state monad whose state survives an exception:
      what was assigned before the [raise] stays assigned. *)

From Stdlib Require Import Reals ZArith List Bool Lia Lra.
From Stdlib Require Import Strings.Byte.
Import ListNotations.

Set Implicit Arguments.

(** ** Python values *)

(** A float as the pipeline sees it: a number, or the [np.nan] marker. *)
Inductive pyfloat : Type :=
| Fin (r : R)
| NaN.

(** [w * s] for a float weight [w] and a stored value [s], the product
    rounded by [rnd]. *)
Definition scale (rnd : R -> R) (w : R) (s : pyfloat) : pyfloat :=
  match s with
  | Fin r => Fin (rnd (w * r)%R)
  | NaN => NaN
  end.

(** [a + b] on stored values, the sum rounded by [rnd]; NaN is
    absorbing. *)
Definition plus (rnd : R -> R) (a b : pyfloat) : pyfloat :=
  match a, b with
  | Fin x, Fin y => Fin (rnd (x + y)%R)
  | _, _ => NaN
  end.

Inductive exn : Type :=
| ValueError      (* min()/max() of an empty sequence, ragged np.array *)
| IndexError      (* list index out of range *)
| NonFinite       (* int()/floor()/ceil() of inf or nan (zero divisor) *)
| ExternalError   (* raised inside scipy, Julia or the regression module *)
| OSError         (* a csv file that cannot be written *)
| DanglingRef.    (* a reference to no object; never built by the node *)

Inductive result (A : Type) : Type :=
| Ok (a : A)
| Raise (e : exn).
Arguments Raise {A} e.

Definition rbind {A B} (r : result A) (k : A -> result B) : result B :=
  match r with
  | Ok a => k a
  | Raise e => Raise e
  end.

Declare Scope result_scope.
Delimit Scope result_scope with result.
Notation "x <- r ;; k" := (rbind r (fun x => k))
  (at level 100, r at next level, right associativity) : result_scope.

(** ** Python list primitives *)

Section PyList.
Variable A : Type.

(** [l[i]] with Python's negative indices. *)
Definition py_index (l : list A) (i : Z) : result A :=
  let len := Z.of_nat (length l) in
  let j := if (i <? 0)%Z then (len + i)%Z else i in
  if ((0 <=? j) && (j <? len))%Z%bool then
    match nth_error l (Z.to_nat j) with
    | Some a => Ok a
    | None => Raise IndexError
    end
  else Raise IndexError.

(** The stop bound of the slice [l[:i]] once normalised. *)
Definition slice_stop (len i : Z) : Z :=
  if (i <? 0)%Z then Z.max (len + i) 0 else Z.min i len.

(** [[a] * i]: empty when [i <= 0]. *)
Definition py_list_mul (a : A) (i : Z) : list A := repeat a (Z.to_nat i).

(** [l[:i] = new], performed on a list. *)
Definition py_assign_prefix (l : list A) (i : Z) (new : list A) : list A :=
  new ++ skipn (Z.to_nat (slice_stop (Z.of_nat (length l)) i)) l.

(** [l[:i] = new], performed on a one-dimensional numpy array: a single
    value is broadcast over the slice, any other number of values has to be
    the number of cells of the slice. *)
Definition np_assign_prefix (l : list A) (i : Z) (new : list A)
  : result (list A) :=
  let k := Z.to_nat (slice_stop (Z.of_nat (length l)) i) in
  match new with
  | [a] => Ok (repeat a k ++ skipn k l)
  | _ => if (length new =? k)%nat then Ok (new ++ skipn k l)
         else Raise ValueError
  end.
End PyList.

(** The two kinds of sequence a channel can be.  [sonar_sub] and
    [slant_range_correction] build lists; what [swath_normalization]
    returns is not visible from this file. *)
Inductive container : Type :=
| PyList
| NdArray.

(** [int(x)]: truncation towards zero. *)
Definition py_int (x : R) : Z :=
  if Rlt_dec x 0 then Zceil x else Zfloor x.

(** [int.from_bytes(b, "big")]. *)
Definition from_bytes_big (b : list byte) : Z :=
  fold_left (fun acc x => (acc * 256 + Z.of_N (Byte.to_N x))%Z) b 0%Z.

(** ** Data model *)

(** [ssd.side_scan_data]: the geometry constants the node reads. *)
Record side_scan_data : Type := {
  theta : R;
  alpha : R;
  res : R;
  nSamples : R
}.

(** The part of [nav_msgs/Odometry] the node reads. *)
Record Odometry : Type := {
  position_x : R;
  position_y : R;
  orientation_w : R;
  orientation_x : R;
  orientation_y : R;
  orientation_z : R
}.

(** [ssd.swath_structure]: the four attributes the node assigns. *)
Record swath_structure : Type := {
  swath_right : list pyfloat;
  swath_left : list pyfloat;
  state : Odometry;
  altitude : R
}.

(** The 6 x N array built by [pose_correction], one field per row:
    row 0 [x_right], 1 [x_left], 2 [y_right], 3 [y_left],
    4 right intensity, 5 left intensity. *)
Record coordinate_array : Type := {
  row0 : list R;
  row1 : list R;
  row2 : list R;
  row3 : list R;
  row4 : list pyfloat;
  row5 : list pyfloat
}.

(** Every row of a numpy array of shape (6, N) has N entries. *)
Definition shape6 (N : nat) (c : coordinate_array) : Prop :=
  length (row0 c) = N /\ length (row1 c) = N /\ length (row2 c) = N /\
  length (row3 c) = N /\ length (row4 c) = N /\ length (row5 c) = N.

Record Sonar : Type := {
  data_zero : list (list byte);
  data_one : list (list byte)
}.

Record DVL : Type := { dvl_altitude : R }.

(** A 2-D table of floats (an interpolated grid, a k-NN raster). *)
Definition raster : Type := list (list pyfloat).

(** What one call of [store_processed_frames] writes when all three
    writes succeed: the three csv tables, named after the frame
    counter. *)
Record stored_frame : Type := {
  frame_number : Z;
  raw_table : list (R * R * pyfloat);
  knn_table : raster;
  knn_filtered_table : raster
}.

(** ** Node state *)

(** A reference to a swath object. *)
Definition ref : Type := nat.

(** The attributes of [SonarProcessingNode], the swath objects they refer
    to ([heap]) and the files written so far ([stored]). *)
Record Node : Type := {
  ssd : side_scan_data;
  heap : list swath_structure;
  current_swath : ref;
  current_altitude : R;
  current_state : Odometry;
  state_initialized : bool;
  buffer_unprocessed_swaths : list ref;
  buffer_processed_coordinate_array : list coordinate_array;
  processed_frame_counter : Z;
  stored : list stored_frame
}.

Definition with_heap (h : list swath_structure) (n : Node) : Node :=
  {| ssd := ssd n; heap := h; current_swath := current_swath n;
     current_altitude := current_altitude n; current_state := current_state n;
     state_initialized := state_initialized n;
     buffer_unprocessed_swaths := buffer_unprocessed_swaths n;
     buffer_processed_coordinate_array := buffer_processed_coordinate_array n;
     processed_frame_counter := processed_frame_counter n;
     stored := stored n |}.

Definition with_current_altitude (a : R) (n : Node) : Node :=
  {| ssd := ssd n; heap := heap n; current_swath := current_swath n;
     current_altitude := a; current_state := current_state n;
     state_initialized := state_initialized n;
     buffer_unprocessed_swaths := buffer_unprocessed_swaths n;
     buffer_processed_coordinate_array := buffer_processed_coordinate_array n;
     processed_frame_counter := processed_frame_counter n;
     stored := stored n |}.

Definition with_current_state (s : Odometry) (i : bool) (n : Node) : Node :=
  {| ssd := ssd n; heap := heap n; current_swath := current_swath n;
     current_altitude := current_altitude n; current_state := s;
     state_initialized := i;
     buffer_unprocessed_swaths := buffer_unprocessed_swaths n;
     buffer_processed_coordinate_array := buffer_processed_coordinate_array n;
     processed_frame_counter := processed_frame_counter n;
     stored := stored n |}.

Definition with_unprocessed (q : list ref) (n : Node) : Node :=
  {| ssd := ssd n; heap := heap n; current_swath := current_swath n;
     current_altitude := current_altitude n; current_state := current_state n;
     state_initialized := state_initialized n;
     buffer_unprocessed_swaths := q;
     buffer_processed_coordinate_array := buffer_processed_coordinate_array n;
     processed_frame_counter := processed_frame_counter n;
     stored := stored n |}.

Definition with_processed (b : list coordinate_array) (n : Node) : Node :=
  {| ssd := ssd n; heap := heap n; current_swath := current_swath n;
     current_altitude := current_altitude n; current_state := current_state n;
     state_initialized := state_initialized n;
     buffer_unprocessed_swaths := buffer_unprocessed_swaths n;
     buffer_processed_coordinate_array := b;
     processed_frame_counter := processed_frame_counter n;
     stored := stored n |}.

Definition with_stored (c : Z) (s : list stored_frame) (n : Node) : Node :=
  {| ssd := ssd n; heap := heap n; current_swath := current_swath n;
     current_altitude := current_altitude n; current_state := current_state n;
     state_initialized := state_initialized n;
     buffer_unprocessed_swaths := buffer_unprocessed_swaths n;
     buffer_processed_coordinate_array := buffer_processed_coordinate_array n;
     processed_frame_counter := c;
     stored := s |}.

(** ** The heap of swath objects *)

Definition deref (n : Node) (l : ref) : option swath_structure :=
  nth_error (heap n) l.

Fixpoint heap_store (h : list swath_structure) (l : ref) (s : swath_structure)
  : list swath_structure :=
  match h, l with
  | [], _ => []
  | _ :: t, O => s :: t
  | x :: t, S l' => x :: heap_store t l' s
  end.

Definition set_swath_right (r : list pyfloat) (s : swath_structure) :=
  {| swath_right := r; swath_left := swath_left s;
     state := state s; altitude := altitude s |}.

Definition set_swath_left (l : list pyfloat) (s : swath_structure) :=
  {| swath_right := swath_right s; swath_left := l;
     state := state s; altitude := altitude s |}.

(** ** The callback monad: state that survives a raise *)

Definition M (A : Type) : Type := Node -> result A * Node.

Definition ret {A} (a : A) : M A := fun n => (Ok a, n).
Definition lift {A} (r : result A) : M A := fun n => (r, n).
Definition get : M Node := fun n => (Ok n, n).
Definition modify (f : Node -> Node) : M unit := fun n => (Ok tt, f n).

Definition bind {A B} (m : M A) (k : A -> M B) : M B :=
  fun n =>
    match m n with
    | (Ok a, n') => k a n'
    | (Raise e, n') => (Raise e, n')
    end.

Declare Scope node_scope.
Delimit Scope node_scope with node.
Notation "x <~ m ;; k" := (bind m (fun x => k))
  (at level 100, m at next level, right associativity) : node_scope.
Notation "m >> k" := (bind m (fun _ => k))
  (at level 100, right associativity) : node_scope.

(** Read the object behind a reference. *)
Definition load (l : ref) : M swath_structure :=
  fun n =>
    match deref n l with
    | Some s => (Ok s, n)
    | None => (Raise DanglingRef, n)
    end.

(** Assign to attributes of the object behind a reference. *)
Definition update (l : ref) (f : swath_structure -> swath_structure) : M unit :=
  fun n =>
    match deref n l with
    | Some s => (Ok tt, with_heap (heap_store (heap n) l (f s)) n)
    | None => (Raise DanglingRef, n)
    end.

(** ** Construction and the three subscriptions *)

(** [Odometry()]: a zero position and the identity orientation. *)
Definition Odometry_default : Odometry :=
  {| position_x := 0; position_y := 0; orientation_w := 1;
     orientation_x := 0; orientation_y := 0; orientation_z := 0 |}.

(** [__init__].  The geometry [g] and the fresh swath object [s0] come from
    [ssd.side_scan_data()] and [ssd.swath_structure()]; [s0] is the only
    swath object the node ever allocates. *)
Definition init (g : side_scan_data) (s0 : swath_structure) : Node :=
  {| ssd := g; heap := [s0]; current_swath := 0%nat;
     current_altitude := 0; current_state := Odometry_default;
     state_initialized := false;
     buffer_unprocessed_swaths := [];
     buffer_processed_coordinate_array := [];
     processed_frame_counter := 1;
     stored := [] |}.

Definition decode (raw : list (list byte)) : list pyfloat :=
  map (fun byte_val => Fin (IZR (from_bytes_big byte_val))) raw.

Definition sonar_sub (sonar_msg : Sonar) : M unit :=
  (self <~ get ;;
   if negb (state_initialized self) then ret tt
   else
     update (current_swath self)
            (set_swath_right (decode (data_zero sonar_msg))) >>
     update (current_swath self)
            (set_swath_left (decode (data_one sonar_msg))) >>
     update (current_swath self)
            (fun s => {| swath_right := swath_right s;
                         swath_left := swath_left s;
                         state := current_state self;
                         altitude := current_altitude self |}) >>
     modify (fun n => with_unprocessed
                        (buffer_unprocessed_swaths n ++ [current_swath n]) n)
  )%node.

Definition dvl_sub (dvl_msg : DVL) : M unit :=
  if Req_dec_T (dvl_altitude dvl_msg) (-1) then ret tt
  else modify (with_current_altitude (dvl_altitude dvl_msg)).

Definition state_sub (state_msg : Odometry) : M unit :=
  modify (with_current_state state_msg true).

(** ** Data processing functions *)

(** [int(np.floor_divide(r_FBR, res))]. *)
Definition index_FBR (self : Node) : result Z :=
  let s := sin (theta (ssd self) + alpha (ssd self) / 2) in
  if Req_dec_T s 0 then Raise NonFinite
  else if Req_dec_T (res (ssd self)) 0 then Raise NonFinite
  else
    let r_FBR := (current_altitude self / s)%R in
    Ok (Zfloor (r_FBR / res (ssd self))).

(** [kind] tells whether [swath] is a list or a numpy array. *)
Definition blind_zone_removal (self : Node) (kind : container)
           (swath : list pyfloat) : result (list pyfloat) :=
  (index <- index_FBR self ;;
   match kind with
   | PyList => Ok (py_assign_prefix swath index (py_list_mul NaN index))
   | NdArray => np_assign_prefix swath index (py_list_mul NaN index)
   end)%result.

(** Line 96 as the machine computes it: the product, the two squares, the
    sum, the square root and the quotient are rounded one after the
    other. *)
Definition computed_bin (rnd : R -> R) (res altitude : R) (sample : nat)
  : R :=
  rnd (rnd (sqrt (rnd (rnd (rnd (res * INR sample) ^ 2)
                       + rnd (altitude ^ 2))))
       / res)%R.

(** One turn of the loop of [slant_range_correction]. *)
Definition slant_sample (rnd : R -> R) (res altitude : R)
           (right left : list pyfloat)
           (number_of_samples : nat) (sample : nat)
  : result (pyfloat * pyfloat)%type :=
  if Req_dec_T res 0 then Raise NonFinite
  else
    let exact_bin := computed_bin rnd res altitude sample in
    let floor_bin :=
      Z.min (Zfloor exact_bin) (Z.of_nat number_of_samples - 1) in
    let ceiling_bin :=
      Z.min (Zceil exact_bin) (Z.of_nat number_of_samples - 1) in
    let weight_1 := rnd (exact_bin - IZR floor_bin)%R in
    let weight_2 := rnd (1 - weight_1)%R in
    (rf <- py_index right floor_bin ;;
     rc <- py_index right ceiling_bin ;;
     lf <- py_index left floor_bin ;;
     lc <- py_index left ceiling_bin ;;
     Ok (plus rnd (scale rnd weight_2 rf) (scale rnd weight_1 rc),
         plus rnd (scale rnd weight_2 lf) (scale rnd weight_1 lc)))%result.

(** The loop, over [range(number_of_samples)], appending to both lists. *)
Fixpoint slant_loop (body : nat -> result (pyfloat * pyfloat)%type)
         (range : list nat) : result (list pyfloat * list pyfloat)%type :=
  match range with
  | [] => Ok ([], [])
  | s :: rest =>
      (p <- body s ;;
       q <- slant_loop body rest ;;
       Ok (fst p :: fst q, snd p :: snd q))%result
  end.

(** [slant_range_correction]: the corrected pair of channels.  The swath
    object is assigned only after the loop. *)
Definition slant_range_correction (rnd : R -> R) (self : Node)
           (s : swath_structure)
  : result (list pyfloat * list pyfloat)%type :=
  let number_of_samples := length (swath_right s) in
  slant_loop
    (slant_sample rnd (res (ssd self)) (altitude s)
                  (swath_right s) (swath_left s) number_of_samples)
    (seq 0 number_of_samples).

(** [math.atan2]. *)
Definition atan2 (y x : R) : R :=
  if Rlt_dec 0 x then atan (y / x)
  else if Rlt_dec x 0 then
         if Rle_dec 0 y then atan (y / x) + PI else atan (y / x) - PI
       else if Rlt_dec 0 y then PI / 2
            else if Rlt_dec y 0 then - (PI / 2) else 0.

Definition pitch_yaw_from_quaternion (w x y z : R) : R * R :=
  let t2 := (2 * (w * y - z * x))%R in
  let t2 := if Rlt_dec 1 t2 then 1%R else t2 in
  let t2 := if Rlt_dec t2 (-1) then (-1)%R else t2 in
  let pitch := asin t2 in
  let t3 := (2 * (w * z + x * y))%R in
  let t4 := (1 - 2 * (y * y + z * z))%R in
  let yaw := atan2 t3 t4 in
  (pitch, yaw).

Definition pose_correction (self : Node) (s : swath_structure)
  : result coordinate_array :=
  let '(theta_p, psi) :=
    pitch_yaw_from_quaternion (orientation_w (state s)) (orientation_x (state s))
                              (orientation_y (state s)) (orientation_z (state s)) in
  let pos_x := position_x (state s) in
  let pos_y := position_y (state s) in
  let altitude := altitude s in
  let res_temp := (tan (theta (ssd self) + alpha (ssd self) / 2)
                   - tan (theta (ssd self) - alpha (ssd self) / 2))%R in
  let res := (res_temp * altitude / nSamples (ssd self))%R in
  let number_of_samples := length (swath_right s) in
  if negb (length (swath_left s) =? number_of_samples)%nat
  then Raise ValueError
  else
    let range := seq 0 number_of_samples in
    Ok {| row0 := map (fun s => - (pos_x + sin psi * INR s * res
                                   + sin theta_p * cos psi * altitude))%R range;
          row1 := map (fun s => - (pos_x - sin psi * INR s * res
                                   + sin theta_p * cos psi * altitude))%R range;
          row2 := map (fun s => (- pos_y + cos psi * INR s * res
                                 - sin theta_p * sin psi * altitude))%R range;
          row3 := map (fun s => (- pos_y - cos psi * INR s * res
                                 - sin theta_p * sin psi * altitude))%R range;
          row4 := swath_right s;
          row5 := swath_left s |}.

(** ** Building a mosaic frame *)

(** The loop of [construct_frame]: per buffered array, [u] gets rows 0 and
    1, [v] rows 2 and 3, and the intensities get row 5, then row 4. *)
Definition extend_scatter (acc : list R * list R * list pyfloat)
           (c : coordinate_array) : list R * list R * list pyfloat :=
  let '(u, v, intensity_values) := acc in
  (u ++ (row0 c ++ row1 c),
   v ++ (row2 c ++ row3 c),
   (intensity_values ++ row5 c) ++ row4 c).

Definition scatter (buffer : list coordinate_array)
  : list R * list R * list pyfloat :=
  fold_left extend_scatter buffer ([], [], []).

(** The builtins [min] and [max] on a list of floats. *)
Definition py_min (l : list R) : result R :=
  match l with
  | [] => Raise ValueError
  | x :: t => Ok (fold_left Rmin t x)
  end.

Definition py_max (l : list R) : result R :=
  match l with
  | [] => Raise ValueError
  | x :: t => Ok (fold_left Rmax t x)
  end.

(** [np.linspace(start, stop, num)]. *)
Definition linspace (start stop : R) (num : Z) : result (list R) :=
  if (num <? 0)%Z then Raise ValueError
  else if (num =? 1)%Z then Ok [start]
  else
    let step := ((stop - start) / IZR (num - 1))%R in
    Ok (map (fun k => (start + INR k * step)%R) (seq 0 (Z.to_nat num))).

(** What [construct_frame] returns. *)
Record mosaic : Type := {
  m_u : list R;
  m_v : list R;
  m_intensity_values : list pyfloat;
  m_linear_frame : raster;
  m_min_u : Z;
  m_min_v : Z;
  m_knn_intensity_mean : raster;
  m_knn_intensity_variance : raster;
  m_knn_filtered_image : raster
}.

(** The three files that [store_processed_frames] writes for a frame. *)
Inductive csv_file : Type :=
| raw_csv
| knn_csv
| knn_filtered_csv.

Section Pipeline.

(** The rounding of the machine's floats, and code the node calls and
    this file does not contain: pandas' [to_csv] on the file of a kind
    and a frame number (it returns, or raises as it does when the
    directory is missing), the regression object's [swath_normalization]
    (its first result, and the kind of sequence that result is), scipy's
    [interpolate.griddata] on the points [(v, u_temp)], the values and the
    two grid axes, and the Julia function [knn]. *)
Variable rnd : R -> R.
Variable to_csv : csv_file -> Z -> result unit.
Variable swath_normalization : list pyfloat -> result (list pyfloat).
Variable normalized_kind : container.
Variable griddata :
  list R -> list R -> list pyfloat -> list R -> list R -> result raster.
Variable knn :
  R -> list R -> list R -> list pyfloat -> result (raster * raster * raster).

(** [store_processed_frames]: the rows of the raw table are
    [zip(u, v, intensity_values)].  The three files are written one after
    the other and the counter moves after the last of them; [stored]
    lists the frames whose three files have been written. *)
Definition store_processed_frames (u v : list R)
           (intensity_values : list pyfloat)
           (knn_intensity_mean knn_filtered_image : raster) : M unit :=
  (self <~ get ;;
   lift (to_csv raw_csv (processed_frame_counter self)) >>
   lift (to_csv knn_csv (processed_frame_counter self)) >>
   lift (to_csv knn_filtered_csv (processed_frame_counter self)) >>
   modify (fun n =>
     with_stored (processed_frame_counter n + 1)
       (stored n ++
        [{| frame_number := processed_frame_counter n;
            raw_table := combine (combine u v) intensity_values;
            knn_table := knn_intensity_mean;
            knn_filtered_table := knn_filtered_image |}]) n))%node.

Definition construct_frame : M mosaic :=
  (self <~ get ;;
   let '(u, v, intensity_values) :=
     scatter (buffer_processed_coordinate_array self) in
   let u_temp := map (fun element => (element * -1)%R) u in
   min_u <~ lift (py_min u_temp) ;;
   max_u <~ lift (py_max u_temp) ;;
   u_interval <~ lift (linspace min_u max_u (py_int (max_u - min_u))) ;;
   min_v <~ lift (py_min v) ;;
   max_v <~ lift (py_max v) ;;
   v_interval <~ lift (linspace min_v max_v (py_int (max_v - min_v))) ;;
   linear_frame <~
     lift (griddata v u_temp intensity_values v_interval u_interval) ;;
   k <~ lift (knn (res (ssd self)) u_temp v intensity_values) ;;
   let '(knn_intensity_mean, knn_intensity_variance, knn_filtered_image) :=
     k in
   store_processed_frames u v intensity_values
                          knn_intensity_mean knn_filtered_image >>
   ret {| m_u := u; m_v := v; m_intensity_values := intensity_values;
          m_linear_frame := linear_frame;
          m_min_u := py_int min_u; m_min_v := py_int min_v;
          m_knn_intensity_mean := knn_intensity_mean;
          m_knn_intensity_variance := knn_intensity_variance;
          m_knn_filtered_image := knn_filtered_image |})%node.

(** The condition of line 161. *)
Definition frame_due (buffer_size : nat) : bool :=
  (buffer_size mod 100 =? 0)%nat && negb (buffer_size =? 0)%nat.

(** Lines 160-163: build a frame when one is due, then drop the first 50
    arrays. *)
Definition mosaic_step : M unit :=
  (self <~ get ;;
   let buffer_size := length (buffer_processed_coordinate_array self) in
   if frame_due buffer_size then
     construct_frame >>
     modify (fun n => with_processed
                        (skipn 50 (buffer_processed_coordinate_array n)) n)
   else ret tt)%node.

(** Lines 166-186: process the swath at the head of the queue. *)
Definition process_step : M unit :=
  (self <~ get ;;
   swath_structure <~
     lift (py_index (buffer_unprocessed_swaths self) 0) ;;
   (* Intensity normalization *)
   s <~ load swath_structure ;;
   r <~ lift (swath_normalization (swath_right s)) ;;
   update swath_structure (set_swath_right r) >>
   s <~ load swath_structure ;;
   l <~ lift (swath_normalization (swath_left s)) ;;
   update swath_structure (set_swath_left l) >>
   (* Blind zone removal *)
   s <~ load swath_structure ;;
   r <~ lift (blind_zone_removal self normalized_kind (swath_right s)) ;;
   update swath_structure (set_swath_right r) >>
   s <~ load swath_structure ;;
   l <~ lift (blind_zone_removal self normalized_kind (swath_left s)) ;;
   update swath_structure (set_swath_left l) >>
   (* Slant range correction *)
   s <~ load swath_structure ;;
   c <~ lift (slant_range_correction rnd self s) ;;
   update swath_structure
          (fun s => set_swath_left (snd c) (set_swath_right (fst c) s)) >>
   (* Pose correction *)
   s <~ load swath_structure ;;
   processed_coordinate_array <~ lift (pose_correction self s) ;;
   (* Add element to processed and remove from unprocessed buffer *)
   modify (fun n => with_processed
                      (buffer_processed_coordinate_array n
                       ++ [processed_coordinate_array]) n) >>
   modify (fun n => with_unprocessed
                      (skipn 1 (buffer_unprocessed_swaths n)) n))%node.

Definition run_full_pre_processing_pipeline : M unit :=
  (self <~ get ;;
   (* Don't process if buffer is empty *)
   if (length (buffer_unprocessed_swaths self) =? 0)%nat then ret tt
   else mosaic_step >> process_step)%node.

End Pipeline.

(** ** Vocabulary of the properties *)

(** The scatter as it is interpolated and stored: the k-th [u], the k-th
    [v] and the k-th intensity form one point. *)
Definition scatter_points (buffer : list coordinate_array)
  : list (R * R * pyfloat) :=
  let '(u, v, intensity_values) := scatter buffer in
  combine (combine u v) intensity_values.

(** The points of one array with each side's coordinates next to the
    intensities of the same side. *)
Definition points_same_side (c : coordinate_array) : list (R * R * pyfloat) :=
  combine (combine (row0 c) (row2 c)) (row4 c)
  ++ combine (combine (row1 c) (row3 c)) (row5 c).

(** The points of one array with the right-hand coordinates next to the
    left-hand intensities, and the left-hand coordinates next to the
    right-hand intensities. *)
Definition points_crossed (c : coordinate_array) : list (R * R * pyfloat) :=
  combine (combine (row0 c) (row2 c)) (row5 c)
  ++ combine (combine (row1 c) (row3 c)) (row4 c).

Definition well_shaped (c : coordinate_array) : Prop :=
  exists N, shape6 N c.

(** One array holding a single sample per side. *)
Definition one_sample_array : coordinate_array :=
  {| row0 := [1%R]; row1 := [2%R]; row2 := [3%R]; row3 := [4%R];
     row4 := [Fin 10]; row5 := [Fin 20] |}.

(** Modelled from the spec: [swath_normalization] is a method of
    [cubic_spline_regression], a module of the repository that this file
    cannot see.  The specification has [normalize(channel)] return "a
    per-sample intensity flattened against that trend": one output sample
    for each input sample. *)
Definition per_sample (normalize : list pyfloat -> result (list pyfloat))
  : Prop :=
  forall l l', normalize l = Ok l' -> length l' = length l.

(** The swath object once all three stages have written to it. *)
Definition corrected (s : swath_structure)
           (c : list pyfloat * list pyfloat) : swath_structure :=
  {| swath_right := fst c; swath_left := snd c;
     state := state s; altitude := altitude s |}.

(** The number of points in the scatter of a buffer. *)
Definition scatter_size (buffer : list coordinate_array) : nat :=
  length (fst (fst (scatter buffer))).

Section Vocabulary.

Variable rnd : R -> R.
Variable to_csv : csv_file -> Z -> result unit.
Variable swath_normalization : list pyfloat -> result (list pyfloat).
Variable normalized_kind : container.
Variable griddata :
  list R -> list R -> list pyfloat -> list R -> list R -> result raster.
Variable knn :
  R -> list R -> list R -> list pyfloat -> result (raster * raster * raster).

(** The states a node passes through: construction, then any sequence of
    the three subscriptions and the timer callback.  A callback that
    raises leaves the state it had reached. *)
Inductive reachable (g : side_scan_data) (s0 : swath_structure)
  : Node -> Prop :=
| reach_init : reachable g s0 (init g s0)
| reach_sonar n sonar_msg :
    reachable g s0 n -> reachable g s0 (snd (sonar_sub sonar_msg n))
| reach_dvl n dvl_msg :
    reachable g s0 n -> reachable g s0 (snd (dvl_sub dvl_msg n))
| reach_state n state_msg :
    reachable g s0 n -> reachable g s0 (snd (state_sub state_msg n))
| reach_timer n :
    reachable g s0 n ->
    reachable g s0
      (snd (run_full_pre_processing_pipeline
              rnd to_csv swath_normalization normalized_kind griddata knn
              n)).

(** The timer callback as C3 words it: the build is considered first,
    whatever the queue holds, and the queue is looked at afterwards. *)
Definition tick_build_first : M unit :=
  (mosaic_step to_csv griddata knn >>
   self <~ get ;;
   if (length (buffer_unprocessed_swaths self) =? 0)%nat then ret tt
   else process_step rnd swath_normalization normalized_kind)%node.

End Vocabulary.

(** ** Concrete configurations used in the examples *)

(** A 60 degree beam, no tilt, unit range resolution. *)
Definition geometry60 : side_scan_data :=
  {| theta := 0; alpha := PI / 3; res := 1; nSamples := 2 |}.

Definition blank_swath : swath_structure :=
  {| swath_right := []; swath_left := [];
     state := Odometry_default; altitude := 0 |}.

(** Stand-ins for the parameters: arithmetic without rounding error, a
    disk that takes every file, a normalization that returns its
    argument, an interpolation and a smoothing that return empty
    tables. *)
Definition no_rounding (x : R) : R := x.
Definition to_csv_ok (_ : csv_file) (_ : Z) : result unit := Ok tt.
Definition normalization_id (l : list pyfloat) : result (list pyfloat) :=
  Ok l.
Definition griddata_blank (_ _ : list R) (_ : list pyfloat) (_ _ : list R)
  : result raster := Ok [].
Definition knn_blank (_ : R) (_ _ : list R) (_ : list pyfloat)
  : result (raster * raster * raster) := Ok ([], [], []).

(** A ping without samples, the 6 x 0 array it is turned into, and the node
    that has received a pose, [q] such pings still queued and [k] of them
    processed, and no altitude. *)
Definition blank_ping : Sonar := {| data_zero := []; data_one := [] |}.

Definition blank_array : coordinate_array :=
  {| row0 := []; row1 := []; row2 := []; row3 := [];
     row4 := []; row5 := [] |}.

Definition blank_node (k q : nat) : Node :=
  {| ssd := geometry60; heap := [blank_swath]; current_swath := 0%nat;
     current_altitude := 0; current_state := Odometry_default;
     state_initialized := true;
     buffer_unprocessed_swaths := repeat 0%nat q;
     buffer_processed_coordinate_array := repeat blank_array k;
     processed_frame_counter := 1;
     stored := [] |}.

(** Two pings of one sample per side. *)
Definition ping_A : Sonar :=
  {| data_zero := [[x01]]; data_one := [[x02]] |}.
Definition ping_B : Sonar :=
  {| data_zero := [[x03]]; data_one := [[x04]] |}.

(** A ping of five samples per side. *)
Definition ping_5 : Sonar :=
  {| data_zero := [[x01]; [x02]; [x03]; [x04]; [x05]];
     data_one := [[x06]; [x07]; [x08]; [x09]; [x0a]] |}.

(** The node after construction and one pose message. *)
Definition posed_node : Node :=
  snd (state_sub Odometry_default (init geometry60 blank_swath)).

(** ** Vocabulary of the further properties *)

(** The node after a run of altitude readings. *)
Definition after_dvl (msgs : list DVL) (n : Node) : Node :=
  fold_left (fun n dvl_msg => snd (dvl_sub dvl_msg n)) msgs n.

(** The number of columns of an array. *)
Definition columns (c : coordinate_array) : nat := length (row0 c).

(** What a ping is decoded to: a number, never the marker, that is a
    non-negative integer below 256 to the number of bytes. *)
Definition decoded_from (byte_val : list byte) (v : pyfloat) : Prop :=
  exists z : Z,
    v = Fin (IZR z) /\ (0 <= z < 256 ^ Z.of_nat (length byte_val))%Z.

(** The swath that [sonar_sub] writes into the swath object of [n]. *)
Definition ping_swath (sonar_msg : Sonar) (n : Node) : swath_structure :=
  {| swath_right := decode (data_zero sonar_msg);
     swath_left := decode (data_one sonar_msg);
     state := current_state n;
     altitude := current_altitude n |}.

(** The pose of a level vehicle at [(pos_x, pos_y)] turned by [psi] about
    the vertical axis. *)
Definition yaw_only (psi : R) (pos_x pos_y : R) : Odometry :=
  {| position_x := pos_x; position_y := pos_y;
     orientation_w := cos (psi / 2); orientation_x := 0;
     orientation_y := 0; orientation_z := sin (psi / 2) |}.

(** The bin of line 96 without rounding error, and the two bins of lines
    97 and 98 that the machine reads, as functions of the sample index. *)
Definition exact_bin (res altitude : R) (sample : nat) : R :=
  (sqrt ((res * INR sample) ^ 2 + altitude ^ 2) / res)%R.

Definition floor_bin (rnd : R -> R) (res altitude : R)
           (number_of_samples sample : nat) : Z :=
  Z.min (Zfloor (computed_bin rnd res altitude sample))
        (Z.of_nat number_of_samples - 1).

Definition ceiling_bin (rnd : R -> R) (res altitude : R)
           (number_of_samples sample : nat) : Z :=
  Z.min (Zceil (computed_bin rnd res altitude sample))
        (Z.of_nat number_of_samples - 1).

(** What the properties ask of the rounding.  Each holds of rounding to
    the nearest float: zero and the integers up to 2^53 are floats,
    rounding keeps the order, and a float is its own rounding. *)
Definition sign_preserving (rnd : R -> R) : Prop :=
  forall x : R, (0 <= x)%R -> (0 <= rnd x)%R.


Definition exact_on_integers (rnd : R -> R) : Prop :=
  forall z : Z, (Z.abs z <= 2 ^ 53)%Z -> rnd (IZR z) = IZR z.

(** * Properties *)

Unset Implicit Arguments.

(** ** The Python primitives on small inputs *)

Example from_bytes_big_256 : from_bytes_big [x01; x00] = 256%Z.
Proof. reflexivity. Qed.

Example py_index_last : py_index [10; 20; 30]%Z (-1) = Ok 30%Z.
Proof. reflexivity. Qed.

Example py_index_past_end : py_index [10; 20; 30]%Z 3 = Raise IndexError.
Proof. reflexivity. Qed.

Example py_index_before_start :
  py_index [10; 20; 30]%Z (-4) = Raise IndexError.
Proof. reflexivity. Qed.

Example py_assign_prefix_inside :
  py_assign_prefix [1; 2; 3]%Z 2 (py_list_mul 0%Z 2) = [0; 0; 3]%Z.
Proof. reflexivity. Qed.

Example py_assign_prefix_past_end :
  py_assign_prefix [1; 2; 3]%Z 5 (py_list_mul 0%Z 5) = [0; 0; 0; 0; 0]%Z.
Proof. reflexivity. Qed.

Example py_assign_prefix_negative_bound :
  py_assign_prefix [1; 2; 3]%Z (-1) (py_list_mul 0%Z (-1)) = [3]%Z.
Proof. reflexivity. Qed.

Example np_assign_prefix_inside :
  np_assign_prefix [1; 2; 3]%Z 2 (py_list_mul 0%Z 2) = Ok [0; 0; 3]%Z.
Proof. reflexivity. Qed.

Example np_assign_prefix_past_end :
  np_assign_prefix [1; 2; 3]%Z 5 (py_list_mul 0%Z 5) = Raise ValueError.
Proof. reflexivity. Qed.

Example np_assign_prefix_broadcast :
  np_assign_prefix [1; 2; 3]%Z 1 (py_list_mul 0%Z 1) = Ok [0; 2; 3]%Z.
Proof. reflexivity. Qed.

Example np_assign_prefix_negative_bound :
  np_assign_prefix [1; 2; 3]%Z (-1) (py_list_mul 0%Z (-1))
  = Raise ValueError.
Proof. reflexivity. Qed.

Example frame_due_values :
  map frame_due [0; 50; 100; 150; 200]%nat
  = [false; false; true; false; true].
Proof. reflexivity. Qed.

Example scatter_one_array :
  scatter [one_sample_array]
  = ([1; 2]%R, [3; 4]%R, [Fin 20; Fin 10]).
Proof. reflexivity. Qed.

(** ** Slice assignment *)

Section SliceFacts.
Variable A : Type.
Implicit Types (l new : list A) (i : Z).

Lemma length_py_list_mul (a : A) i :
  length (py_list_mul a i) = Z.to_nat i.
Proof. apply repeat_length. Qed.

Lemma length_py_assign_prefix l i new :
  Z.of_nat (length (py_assign_prefix l i new)) =
  (Z.of_nat (length new) + Z.of_nat (length l)
   - slice_stop (Z.of_nat (length l)) i)%Z.
Proof.
  unfold py_assign_prefix, slice_stop.
  rewrite length_app, length_skipn.
  destruct (i <? 0)%Z eqn:E; lia.
Qed.

(** Within the list, [l[:i] = [a] * i] overwrites the first [i] cells. *)
Lemma py_assign_prefix_in_range l i (a : A) :
  (0 <= i <= Z.of_nat (length l))%Z ->
  py_assign_prefix l i (py_list_mul a i) =
  repeat a (Z.to_nat i) ++ skipn (Z.to_nat i) l.
Proof.
  intros H. unfold py_assign_prefix, py_list_mul, slice_stop.
  replace (i <? 0)%Z with false by (symmetry; apply Z.ltb_ge; lia).
  now rewrite Z.min_l by lia.
Qed.

(** Past the end, the same statement makes the list [i] cells long. *)
Lemma py_assign_prefix_beyond l i (a : A) :
  (Z.of_nat (length l) <= i)%Z ->
  py_assign_prefix l i (py_list_mul a i) = repeat a (Z.to_nat i).
Proof.
  intros H. unfold py_assign_prefix, py_list_mul, slice_stop.
  replace (i <? 0)%Z with false by (symmetry; apply Z.ltb_ge; lia).
  rewrite Z.min_r by lia. rewrite Nat2Z.id, skipn_all. apply app_nil_r.
Qed.

(** With a negative bound nothing is written and a prefix is deleted. *)
Lemma py_assign_prefix_negative l i (a : A) :
  (i < 0)%Z ->
  py_assign_prefix l i (py_list_mul a i) =
  skipn (Z.to_nat (Z.of_nat (length l) + i)) l.
Proof.
  intros H. unfold py_assign_prefix, py_list_mul, slice_stop.
  replace (i <? 0)%Z with true by (symmetry; apply Z.ltb_lt; lia).
  replace (Z.to_nat i) with 0%nat by lia. simpl.
  f_equal. lia.
Qed.

Lemma py_assign_prefix_twice l i (a : A) :
  let once := py_assign_prefix l i (py_list_mul a i) in
  py_assign_prefix once i (py_list_mul a i) = once.
Proof.
  intros once. destruct (Z.ltb_spec i 0) as [Hneg | Hpos].
  - subst once. rewrite (py_assign_prefix_negative l i a Hneg).
    rewrite py_assign_prefix_negative by assumption.
    rewrite length_skipn.
    set (k := Z.to_nat (Z.of_nat (length l) + i)).
    replace (Z.to_nat (Z.of_nat (length l - k) + i)) with 0%nat by lia.
    reflexivity.
  - assert (Hlen : (i <= Z.of_nat (length once))%Z).
    { subst once. rewrite length_py_assign_prefix, length_py_list_mul.
      unfold slice_stop.
      replace (i <? 0)%Z with false by (symmetry; apply Z.ltb_ge; lia).
      lia. }
    rewrite py_assign_prefix_in_range by lia.
    subst once. unfold py_assign_prefix at 1 2, py_list_mul.
    rewrite skipn_app, repeat_length, Nat.sub_diag, skipn_all2
      by (rewrite repeat_length; lia).
    reflexivity.
Qed.
(** On a numpy array the statement never changes the number of cells,
    and a second run rewrites what the first has written. *)
Lemma np_assign_prefix_twice l i (a : A) out :
  np_assign_prefix l i (py_list_mul a i) = Ok out ->
  length out = length l /\
  np_assign_prefix out i (py_list_mul a i) = Ok out.
Proof.
  unfold np_assign_prefix.
  set (k := Z.to_nat (slice_stop (Z.of_nat (length l)) i)).
  assert (Hk : (k <= length l)%nat)
    by (unfold k, slice_stop; destruct (Z.ltb_spec i 0); lia).
  assert (Hout : forall new, length new = k ->
            length (new ++ skipn k l) = length l /\
            Z.to_nat (slice_stop (Z.of_nat (length (new ++ skipn k l))) i) = k
            /\ skipn k (new ++ skipn k l) = skipn k l).
  { intros new Hnew.
    assert (Hlen : length (new ++ skipn k l) = length l)
      by (rewrite length_app, length_skipn; lia).
    split; [exact Hlen|]. split; [now rewrite Hlen|].
    rewrite skipn_app, Hnew, Nat.sub_diag, skipn_all2 by lia.
    reflexivity. }
  destruct (py_list_mul a i) as [|b [|c new]] eqn:Hnew.
  - destruct (length (@nil A) =? k)%nat eqn:E; [|discriminate].
    apply Nat.eqb_eq in E. intros [= <-].
    destruct (Hout [] E) as (H1 & H2 & H3). cbn [app] in H1, H2, H3 |- *.
    split; [exact H1|]. rewrite H2, E, Nat.eqb_refl, H3. reflexivity.
  - intros [= <-].
    destruct (Hout (repeat b k) (repeat_length b k)) as (H1 & H2 & H3).
    split; [exact H1|]. rewrite H2, H3. reflexivity.
  - destruct (length (b :: c :: new) =? k)%nat eqn:E; [|discriminate].
    apply Nat.eqb_eq in E. intros [= <-].
    destruct (Hout (b :: c :: new) E) as (H1 & H2 & H3).
    cbn [app] in H1, H2, H3 |- *.
    split; [exact H1|]. rewrite H2, E, Nat.eqb_refl, H3. reflexivity.
Qed.

(** Within the array both kinds of sequence agree. *)
Lemma np_assign_prefix_in_range l i (a : A) :
  (0 <= i <= Z.of_nat (length l))%Z ->
  np_assign_prefix l i (py_list_mul a i) =
  Ok (repeat a (Z.to_nat i) ++ skipn (Z.to_nat i) l).
Proof.
  intros H. unfold np_assign_prefix, py_list_mul, slice_stop.
  replace (i <? 0)%Z with false by (symmetry; apply Z.ltb_ge; lia).
  rewrite Z.min_l by lia.
  destruct (repeat a (Z.to_nat i)) as [|b [|c new]] eqn:E.
  - apply (f_equal (@length A)) in E. rewrite repeat_length in E.
    rewrite E. reflexivity.
  - assert (Hi : Z.to_nat i = 1%nat)
      by (apply (f_equal (@length A)) in E; now rewrite repeat_length in E).
    rewrite Hi in *. simpl in E. injection E as <-. reflexivity.
  - rewrite <- E, repeat_length, Nat.eqb_refl. reflexivity.
Qed.

End SliceFacts.

(** ** Blind zone removal *)

Lemma index_FBR_value self index :
  index_FBR self = Ok index ->
  index = Zfloor (current_altitude self
                  / sin (theta (ssd self) + alpha (ssd self) / 2)
                  / res (ssd self)).
Proof.
  unfold index_FBR.
  destruct (Req_dec_T _ 0); [discriminate|].
  destruct (Req_dec_T _ 0); [discriminate|].
  now intros [= <-].
Qed.

Lemma index_FBR_defined self :
  sin (theta (ssd self) + alpha (ssd self) / 2) <> 0%R ->
  res (ssd self) <> 0%R ->
  index_FBR self =
  Ok (Zfloor (current_altitude self
              / sin (theta (ssd self) + alpha (ssd self) / 2)
              / res (ssd self))).
Proof.
  intros Hs Hr. unfold index_FBR.
  destruct (Req_dec_T _ 0); [contradiction|].
  destruct (Req_dec_T _ 0); [contradiction|].
  reflexivity.
Qed.

Lemma blind_zone_removal_unfold self kind swath index :
  index_FBR self = Ok index ->
  blind_zone_removal self kind swath =
  match kind with
  | PyList => Ok (py_assign_prefix swath index (py_list_mul NaN index))
  | NdArray => np_assign_prefix swath index (py_list_mul NaN index)
  end.
Proof. intros H. unfold blind_zone_removal. now rewrite H. Qed.

(** An index inside the channel: the two kinds of sequence agree. *)
Lemma blind_zone_removal_prefix self kind swath index :
  index_FBR self = Ok index ->
  (0 <= index <= Z.of_nat (length swath))%Z ->
  blind_zone_removal self kind swath =
  Ok (repeat NaN (Z.to_nat index) ++ skipn (Z.to_nat index) swath).
Proof.
  intros Hi Hr. rewrite (blind_zone_removal_unfold _ _ _ _ Hi).
  destruct kind.
  - now rewrite py_assign_prefix_in_range.
  - now apply np_assign_prefix_in_range.
Qed.

(** C9. Blind zone removal is idempotent, on a list and on a numpy array:
    run again on its own output, with the node's altitude and geometry
    unchanged, it returns that output; when the first run raises, so does
    the composition. *)
Theorem blind_zone_removal_idempotent
        (self : Node) (kind : container) (swath : list pyfloat) :
  rbind (blind_zone_removal self kind swath) (blind_zone_removal self kind) =
  blind_zone_removal self kind swath.
Proof.
  unfold blind_zone_removal.
  destruct (index_FBR self) as [index | e] eqn:Hi; simpl; [|reflexivity].
  destruct kind; simpl.
  - f_equal. apply py_assign_prefix_twice.
  - destruct (np_assign_prefix swath index _) as [out|e] eqn:Hout;
      simpl; [|reflexivity].
    now apply np_assign_prefix_twice in Hout.
Qed.

(** X22. Inside the channel.  The boundary index is
    [floor(altitude / sin(theta + alpha/2) / res)] of the node's current
    altitude.  When it lies between 0 and the channel's length, exactly
    that many leading samples are replaced by the missing-value marker, the
    others stay in place and the length is unchanged, whether the channel
    is a list or a numpy array. *)
Theorem blind_zone_removal_in_range
        (self : Node) (kind : container) (swath : list pyfloat) (index : Z) :
  index_FBR self = Ok index ->
  (0 <= index <= Z.of_nat (length swath))%Z ->
  index = Zfloor (current_altitude self
                  / sin (theta (ssd self) + alpha (ssd self) / 2)
                  / res (ssd self)) /\
  exists out,
    blind_zone_removal self kind swath = Ok out /\
    out = repeat NaN (Z.to_nat index) ++ skipn (Z.to_nat index) swath /\
    length out = length swath.
Proof.
  intros Hi Hr. split; [now apply index_FBR_value|].
  exists (repeat NaN (Z.to_nat index) ++ skipn (Z.to_nat index) swath).
  split; [now apply blind_zone_removal_prefix|].
  split; [reflexivity|].
  rewrite length_app, repeat_length, length_skipn. lia.
Qed.

(** ** The flattened scatter *)

Lemma fold_extend_scatter buffer u v w :
  fold_left extend_scatter buffer (u, v, w) =
  (u ++ flat_map (fun c => row0 c ++ row1 c) buffer,
   v ++ flat_map (fun c => row2 c ++ row3 c) buffer,
   w ++ flat_map (fun c => row5 c ++ row4 c) buffer).
Proof.
  revert u v w. induction buffer as [|c buffer IH]; intros u v w; simpl.
  - now rewrite !app_nil_r.
  - rewrite IH. now rewrite <- !app_assoc.
Qed.

Lemma scatter_flat_map buffer :
  scatter buffer =
  (flat_map (fun c => row0 c ++ row1 c) buffer,
   flat_map (fun c => row2 c ++ row3 c) buffer,
   flat_map (fun c => row5 c ++ row4 c) buffer).
Proof. unfold scatter. now rewrite fold_extend_scatter. Qed.

Lemma combine_append {A B} (l1 l2 : list A) (k1 k2 : list B) :
  length l1 = length k1 ->
  combine (l1 ++ l2) (k1 ++ k2) = combine l1 k1 ++ combine l2 k2.
Proof.
  revert k1. induction l1 as [|a l1 IH]; intros [|b k1] H;
    simpl in *; try discriminate; [reflexivity|].
  f_equal. apply IH. now injection H.
Qed.

Lemma combine_flat_map {A B C} (f : C -> list A) (g : C -> list B) l :
  Forall (fun c => length (f c) = length (g c)) l ->
  combine (flat_map f l) (flat_map g l) =
  flat_map (fun c => combine (f c) (g c)) l.
Proof.
  induction 1 as [|c l Hc _ IH]; simpl; [reflexivity|].
  now rewrite combine_append, IH.
Qed.

Lemma flat_map_Forall_ext {A B} (f g : A -> list B) l :
  Forall (fun c => f c = g c) l -> flat_map f l = flat_map g l.
Proof. induction 1; simpl; congruence. Qed.

Lemma length_flat_map_Forall {A B C} (f : C -> list A) (g : C -> list B) l :
  Forall (fun c => length (f c) = length (g c)) l ->
  length (flat_map f l) = length (flat_map g l).
Proof.
  induction 1; simpl; [reflexivity|]. rewrite !length_app. congruence.
Qed.

(** C1, in the form that holds of the code.  The three flattened sequences
    of a build have one length and line up array by array; inside each
    array the sides are crossed: the right-hand coordinate pairs (rows 0 and
    2) stand next to the left-hand intensities (row 5), the left-hand pairs
    (rows 1 and 3) next to the right-hand intensities (row 4). *)
Theorem scatter_points_crossed (buffer : list coordinate_array) :
  Forall well_shaped buffer ->
  scatter_points buffer = flat_map points_crossed buffer /\
  (let '(u, v, intensity_values) := scatter buffer in
   length u = length v /\ length v = length intensity_values).
Proof.
  intros Hwf. unfold scatter_points. rewrite scatter_flat_map.
  assert (Huv : Forall (fun c => length (row0 c ++ row1 c)
                                 = length (row2 c ++ row3 c)) buffer).
  { eapply Forall_impl; [|exact Hwf].
    intros c (N & H0 & H1 & H2 & H3 & _). rewrite !length_app. congruence. }
  assert (Hvi : Forall (fun c => length (row2 c ++ row3 c)
                                 = length (row5 c ++ row4 c)) buffer).
  { eapply Forall_impl; [|exact Hwf].
    intros c (N & _ & _ & H2 & H3 & H4 & H5). rewrite !length_app. congruence. }
  split.
  - rewrite (combine_flat_map _ _ _ Huv), combine_flat_map.
    + apply flat_map_Forall_ext.
      eapply Forall_impl; [|exact Hwf].
      intros c (N & H0 & H1 & H2 & H3 & H4 & H5).
      unfold points_crossed.
      rewrite (combine_append (row0 c) (row1 c) (row2 c) (row3 c))
        by congruence.
      apply combine_append. rewrite length_combine. lia.
    + eapply Forall_impl; [|exact Hwf].
      intros c (N & H0 & H1 & H2 & H3 & H4 & H5).
      rewrite length_combine, !length_app. lia.
  - split; now apply length_flat_map_Forall.
Qed.

Lemma one_sample_array_shape : well_shaped one_sample_array.
Proof. exists 1%nat. repeat split. Qed.

(** The crossing on a buffer of 100 one-sample arrays. *)
Lemma scatter_points_crossed_witness :
  Forall well_shaped (repeat one_sample_array 100) /\
  scatter_points (repeat one_sample_array 100) =
  flat_map points_crossed (repeat one_sample_array 100).
Proof.
  assert (H : Forall well_shaped (repeat one_sample_array 100)).
  { apply Forall_forall. intros c Hc. apply repeat_spec in Hc. subst c.
    apply one_sample_array_shape. }
  split; [exact H|]. exact (proj1 (scatter_points_crossed _ H)).
Defined.

(** C1, as stated, fails on a buffer of 100 one-sample arrays: the first
    point of the scatter carries the left-hand intensity 20 beside the
    right-hand coordinates (1, 3), not the right-hand intensity 10. *)
Lemma scatter_points_not_same_side :
  hd_error (scatter_points (repeat one_sample_array 100))
  = Some (1%R, 3%R, Fin 20) /\
  hd_error (flat_map points_same_side (repeat one_sample_array 100))
  = Some (1%R, 3%R, Fin 10) /\
  scatter_points (repeat one_sample_array 100)
  <> flat_map points_same_side (repeat one_sample_array 100).
Proof.
  assert (H1 : hd_error (scatter_points (repeat one_sample_array 100))
               = Some (1%R, 3%R, Fin 20)).
  { unfold scatter_points. rewrite scatter_flat_map. reflexivity. }
  assert (H2 : hd_error (flat_map points_same_side
                                  (repeat one_sample_array 100))
               = Some (1%R, 3%R, Fin 10)) by reflexivity.
  repeat split; try assumption.
  intros E. rewrite E, H2 in H1.
  injection H1 as H1. lra.
Qed.

(** ** Slant range correction *)

Lemma py_index_in_range {A} (l : list A) (i : Z) (d : A) :
  (0 <= i < Z.of_nat (length l))%Z ->
  py_index l i = Ok (nth (Z.to_nat i) l d).
Proof.
  intros H. unfold py_index.
  replace (i <? 0)%Z with false by (symmetry; apply Z.ltb_ge; lia).
  replace (0 <=? i)%Z with true by (symmetry; apply Z.leb_le; lia).
  replace (i <? Z.of_nat (length l))%Z with true
    by (symmetry; apply Z.ltb_lt; lia).
  simpl. rewrite (nth_error_nth' l d) by lia. reflexivity.
Qed.

Lemma slant_loop_lengths body range out :
  slant_loop body range = Ok out ->
  length (fst out) = length range /\ length (snd out) = length range.
Proof.
  revert out. induction range as [|s range IH]; intros out; simpl.
  - intros [= <-]. now split.
  - destruct (body s) as [p|]; simpl; [|discriminate].
    destruct (slant_loop body range) as [q|]; simpl; [|discriminate].
    intros [= <-]. simpl. destruct (IH q eq_refl). split; congruence.
Qed.

Lemma slant_range_correction_lengths rnd self s c :
  slant_range_correction rnd self s = Ok c ->
  length (fst c) = length (swath_right s) /\
  length (snd c) = length (swath_right s).
Proof.
  unfold slant_range_correction. intros H.
  apply slant_loop_lengths in H. now rewrite length_seq in H.
Qed.

Lemma exact_bin_nonneg (res altitude : R) (s : nat) :
  (0 < res)%R ->
  (0 <= sqrt ((res * INR s) ^ 2 + altitude ^ 2) / res)%R.
Proof.
  intros Hres. apply Rmult_le_pos; [apply sqrt_pos|].
  left. now apply Rinv_0_lt_compat.
Qed.

(** A rounding that keeps the sign keeps the computed bin at or above
    0. *)
Lemma computed_bin_nonneg rnd (res altitude : R) (s : nat) :
  sign_preserving rnd ->
  (0 < res)%R ->
  (0 <= computed_bin rnd res altitude s)%R.
Proof.
  intros Hrnd Hres. unfold computed_bin. apply Hrnd.
  apply Rmult_le_pos; [apply Hrnd, sqrt_pos|].
  left. now apply Rinv_0_lt_compat.
Qed.

Lemma Zfloor_nonneg (x : R) : (0 <= x)%R -> (0 <= Zfloor x)%Z.
Proof. intros H. now apply Zfloor_lub. Qed.

Lemma Zceil_nonneg (x : R) : (0 <= x)%R -> (0 <= Zceil x)%Z.
Proof.
  intros H. apply le_IZR. destruct (Zceil_bound x) as [_ Hb]. lra.
Qed.

Lemma Zfloor_le_Zceil (x : R) : (Zfloor x <= Zceil x)%Z.
Proof. apply le_IZR. destruct (Zfloor_ceil_bound x). lra. Qed.

(** With a positive resolution both bins fall inside the channel. *)
Lemma slant_bins_in_range rnd (res altitude : R) (N s : nat) :
  sign_preserving rnd ->
  (0 < res)%R -> (s < N)%nat ->
  let exact_bin := computed_bin rnd res altitude s in
  (0 <= Z.min (Zfloor exact_bin) (Z.of_nat N - 1) < Z.of_nat N)%Z /\
  (0 <= Z.min (Zceil exact_bin) (Z.of_nat N - 1) < Z.of_nat N)%Z.
Proof.
  intros Hrnd Hres Hs exact_bin.
  pose proof (Zfloor_nonneg _ (computed_bin_nonneg rnd res altitude s
                                 Hrnd Hres)).
  pose proof (Zceil_nonneg _ (computed_bin_nonneg rnd res altitude s
                                Hrnd Hres)).
  fold exact_bin in H, H0. lia.
Qed.

(** One turn of the loop, when nothing can go wrong. *)
Lemma slant_sample_in_range rnd res altitude right left N s :
  sign_preserving rnd ->
  (0 < res)%R -> (s < N)%nat ->
  length right = N -> length left = N ->
  let exact_bin := computed_bin rnd res altitude s in
  let floor_bin := Z.min (Zfloor exact_bin) (Z.of_nat N - 1) in
  let ceiling_bin := Z.min (Zceil exact_bin) (Z.of_nat N - 1) in
  let w1 := rnd (exact_bin - IZR floor_bin)%R in
  let w2 := rnd (1 - w1)%R in
  slant_sample rnd res altitude right left N s =
  Ok (plus rnd (scale rnd w2 (nth (Z.to_nat floor_bin) right NaN))
           (scale rnd w1 (nth (Z.to_nat ceiling_bin) right NaN)),
      plus rnd (scale rnd w2 (nth (Z.to_nat floor_bin) left NaN))
           (scale rnd w1 (nth (Z.to_nat ceiling_bin) left NaN))).
Proof.
  intros Hrnd Hres Hs Hr Hl. cbv zeta.
  destruct (slant_bins_in_range rnd res altitude N s Hrnd Hres Hs)
    as [Hf Hc].
  unfold slant_sample.
  destruct (Req_dec_T res 0) as [E|_]; [lra|].
  rewrite (py_index_in_range right _ NaN) by (rewrite Hr; exact Hf).
  rewrite (py_index_in_range right _ NaN) by (rewrite Hr; exact Hc).
  rewrite (py_index_in_range left _ NaN) by (rewrite Hl; exact Hf).
  rewrite (py_index_in_range left _ NaN) by (rewrite Hl; exact Hc).
  reflexivity.
Qed.

Lemma slant_loop_defined body range :
  (forall s, In s range -> exists p, body s = Ok p) ->
  exists out, slant_loop body range = Ok out.
Proof.
  induction range as [|s range IH]; intros H; simpl; [eauto|].
  destruct (H s) as [p Hp]; [now left|]. rewrite Hp. simpl.
  destruct IH as [out Hout]; [intros; apply H; now right|].
  rewrite Hout. simpl. eauto.
Qed.

(** Equal sample counts, a positive resolution and a rounding that keeps
    the sign are enough for [slant_range_correction] to return. *)
Lemma slant_range_correction_defined rnd self sw :
  sign_preserving rnd ->
  length (swath_left sw) = length (swath_right sw) ->
  (0 < res (ssd self))%R ->
  exists c, slant_range_correction rnd self sw = Ok c.
Proof.
  intros Hrnd Hl Hres. unfold slant_range_correction.
  apply slant_loop_defined. intros s Hs. apply in_seq in Hs.
  rewrite (slant_sample_in_range rnd _ _ _ _ (length (swath_right sw)) s)
    by (assumption || lia || reflexivity).
  eauto.
Qed.

Lemma slant_loop_nth body range out (s : nat) :
  slant_loop body range = Ok out ->
  (s < length range)%nat ->
  body (nth s range 0%nat) = Ok (nth s (fst out) NaN, nth s (snd out) NaN).
Proof.
  revert out s. induction range as [|x range IH]; intros out s; simpl.
  - lia.
  - destruct (body x) as [p|] eqn:Hp; simpl; [|discriminate].
    destruct (slant_loop body range) as [q|]; simpl; [|discriminate].
    intros [= <-] Hs. simpl. destruct s as [|s].
    + rewrite Hp. now destruct p.
    + apply IH; [reflexivity|lia].
Qed.

(** The blend of line 102, written out: two numbers give the rounded sum
    of the two rounded products, and a marker in either place gives the
    marker, whatever its weight. *)
Lemma blend_values rnd (w2 w1 : R) (x y : pyfloat) :
  plus rnd (scale rnd w2 x) (scale rnd w1 y) =
  match x, y with
  | Fin a, Fin b => Fin (rnd (rnd (w2 * a) + rnd (w1 * b))%R)
  | _, _ => NaN
  end.
Proof. now destruct x, y. Qed.

(** Sample 0 when the altitude is a float whose rounded square has that
    float as its rounded square root. *)
Lemma computed_bin_first rnd (res altitude : R) :
  rnd 0%R = 0%R ->
  rnd (rnd (altitude ^ 2)%R) = rnd (altitude ^ 2)%R ->
  rnd (sqrt (rnd (altitude ^ 2)%R)) = altitude ->
  computed_bin rnd res altitude 0 = rnd (altitude / res)%R.
Proof.
  intros H0 Hi Hs. unfold computed_bin. simpl INR.
  replace (res * 0)%R with 0%R by ring. rewrite H0.
  replace (0 ^ 2)%R with 0%R by ring. rewrite H0, Rplus_0_l, Hi, Hs.
  reflexivity.
Qed.

(** C6. On a swath with N samples on each side and a positive range
    resolution, [slant_range_correction] returns two channels of N samples,
    whatever the rounding [rnd] of the machine, as long as it keeps the
    sign.  With every operation rounded, [exact_bin] is
    [sqrt((res*s)^2 + altitude^2) / res], both bins are capped at N - 1,
    [w1 = exact_bin - floor_bin] and [w2 = 1 - w1]; the sample at index s
    of each channel is the blend
    [w2 * sample[floor_bin] + w1 * sample[ceiling_bin]] of that channel:
    the rounded sum of the rounded products of two numbers, and the marker
    when either sample is the marker.  At s = 0, for a non-negative
    altitude that is a float whose rounded square has it as rounded square
    root, [exact_bin] is the rounded [altitude / res]. *)
Theorem slant_range_correction_formula
        (rnd : R -> R) (self : Node) (sw : swath_structure) (N : nat) :
  sign_preserving rnd ->
  length (swath_right sw) = N ->
  length (swath_left sw) = N ->
  (0 < res (ssd self))%R ->
  exists right' left',
    slant_range_correction rnd self sw = Ok (right', left') /\
    length right' = N /\ length left' = N /\
    (forall s : nat, (s < N)%nat ->
       let exact_bin :=
         rnd (rnd (sqrt (rnd (rnd (rnd (res (ssd self) * INR s) ^ 2)
                              + rnd (altitude sw ^ 2))))
              / res (ssd self))%R in
       let floor_bin := Z.min (Zfloor exact_bin) (Z.of_nat N - 1) in
       let ceiling_bin := Z.min (Zceil exact_bin) (Z.of_nat N - 1) in
       let w1 := rnd (exact_bin - IZR floor_bin)%R in
       let w2 := rnd (1 - w1)%R in
       let blend := fun channel : list pyfloat =>
         match nth (Z.to_nat floor_bin) channel NaN,
               nth (Z.to_nat ceiling_bin) channel NaN with
         | Fin a, Fin b => Fin (rnd (rnd (w2 * a) + rnd (w1 * b))%R)
         | _, _ => NaN
         end in
       (0 <= floor_bin <= ceiling_bin)%Z /\
       (ceiling_bin < Z.of_nat N)%Z /\
       nth s right' NaN = blend (swath_right sw) /\
       nth s left' NaN = blend (swath_left sw)) /\
    ((0 <= altitude sw)%R ->
     rnd 0%R = 0%R ->
     rnd (rnd (altitude sw ^ 2)%R) = rnd (altitude sw ^ 2)%R ->
     rnd (sqrt (rnd (altitude sw ^ 2)%R)) = altitude sw ->
     rnd (rnd (sqrt (rnd (rnd (rnd (res (ssd self) * INR 0) ^ 2)
                          + rnd (altitude sw ^ 2))))
          / res (ssd self))%R
     = rnd (altitude sw / res (ssd self))%R).
Proof.
  intros Hrnd Hr Hl Hres.
  destruct (slant_range_correction_defined rnd self sw Hrnd)
    as [[right' left'] Hc]; [congruence|assumption|].
  exists right', left'. split; [exact Hc|].
  destruct (slant_range_correction_lengths _ _ _ _ Hc) as [Hlr Hll].
  simpl in Hlr, Hll. rewrite Hr in Hlr, Hll.
  split; [exact Hlr|]. split; [exact Hll|]. split.
  - intros s Hs. cbv zeta.
    change (rnd (rnd (sqrt (rnd (rnd (rnd (res (ssd self) * INR s) ^ 2)
                                 + rnd (altitude sw ^ 2))))
                 / res (ssd self))%R)
      with (computed_bin rnd (res (ssd self)) (altitude sw) s).
    destruct (slant_bins_in_range rnd (res (ssd self)) (altitude sw) N s
                Hrnd Hres Hs) as [Hf Hb].
    pose proof (Zfloor_le_Zceil
                  (computed_bin rnd (res (ssd self)) (altitude sw) s)) as Hfc.
    split; [lia|]. split; [lia|].
    unfold slant_range_correction in Hc. rewrite Hr in Hc.
    pose proof (slant_loop_nth _ _ _ s Hc) as Hn.
    rewrite length_seq, seq_nth in Hn by assumption.
    specialize (Hn Hs). simpl in Hn.
    rewrite (slant_sample_in_range rnd _ _ _ _ N s Hrnd Hres Hs Hr Hl)
      in Hn.
    rewrite !blend_values in Hn.
    injection Hn as <- <-. split; reflexivity.
  - intros _ H0 Hi Hs.
    now apply (computed_bin_first rnd (res (ssd self)) (altitude sw)).
Qed.

(** ** Computations in the callback monad *)

Lemma bind_eq_Ok {A B} (m : M A) (k : A -> M B) n a n1 :
  m n = (Ok a, n1) -> bind m k n = k a n1.
Proof. intros H. unfold bind. now rewrite H. Qed.

(** ** The heap *)

Lemma nth_error_heap_store h l s :
  (l < length h)%nat -> nth_error (heap_store h l s) l = Some s.
Proof.
  revert l. induction h as [|x h IH]; intros [|l] H; simpl in *;
    try lia; auto with arith.
Qed.

Lemma heap_store_twice h l s1 s2 :
  heap_store (heap_store h l s1) l s2 = heap_store h l s2.
Proof.
  revert l. induction h as [|x h IH]; intros [|l]; simpl; congruence.
Qed.

Lemma deref_stored n l s0 s :
  deref n l = Some s0 ->
  deref (with_heap (heap_store (heap n) l s) n) l = Some s.
Proof.
  unfold deref. simpl. intros H. apply nth_error_heap_store.
  apply nth_error_Some. congruence.
Qed.

Lemma load_stored n l s0 s :
  deref n l = Some s0 ->
  load l (with_heap (heap_store (heap n) l s) n) =
  (Ok s, with_heap (heap_store (heap n) l s) n).
Proof. intros H. unfold load. now rewrite (deref_stored n l s0 s H). Qed.

Lemma update_stored n l s0 s f :
  deref n l = Some s0 ->
  update l f (with_heap (heap_store (heap n) l s) n) =
  (Ok tt, with_heap (heap_store (heap n) l (f s)) n).
Proof.
  intros H. unfold update. rewrite (deref_stored n l s0 s H). simpl.
  now rewrite heap_store_twice.
Qed.

(** ** Sample counts through the stages *)

Lemma blind_zone_removal_lengths self kind a b a' b' :
  length a = length b ->
  blind_zone_removal self kind a = Ok a' ->
  blind_zone_removal self kind b = Ok b' ->
  length a' = length b'.
Proof.
  unfold blind_zone_removal. intros Hab.
  destruct (index_FBR self) as [index|]; simpl; [|discriminate].
  destruct kind.
  - intros [= <-] [= <-]. apply Nat2Z.inj.
    rewrite !length_py_assign_prefix, Hab. reflexivity.
  - intros Ha Hb.
    apply np_assign_prefix_twice in Ha, Hb. destruct Ha, Hb. congruence.
Qed.

Lemma pose_correction_shape self s c :
  pose_correction self s = Ok c ->
  shape6 (length (swath_right s)) c /\
  row4 c = swath_right s /\ row5 c = swath_left s.
Proof.
  unfold pose_correction.
  destruct (pitch_yaw_from_quaternion _ _ _ _) as [theta_p psi].
  destruct (length (swath_left s) =? length (swath_right s))%nat eqn:E;
    simpl; [|discriminate].
  apply Nat.eqb_eq in E. intros [= <-]. simpl.
  unfold shape6. simpl. rewrite !length_map, !length_seq. tauto.
Qed.

Lemma pose_correction_defined self s :
  length (swath_left s) = length (swath_right s) ->
  exists c, pose_correction self s = Ok c.
Proof.
  intros E. unfold pose_correction.
  destruct (pitch_yaw_from_quaternion _ _ _ _) as [theta_p psi].
  apply Nat.eqb_eq in E. rewrite E. simpl. eauto.
Qed.

(** ** The subscriptions *)

Lemma sonar_sub_cases sonar_msg n :
  sonar_sub sonar_msg n =
  if negb (state_initialized n) then (Ok tt, n)
  else
    match deref n (current_swath n) with
    | None => (Raise DanglingRef, n)
    | Some s =>
        (Ok tt,
         with_unprocessed
           (buffer_unprocessed_swaths n ++ [current_swath n])
           (with_heap
              (heap_store (heap n) (current_swath n)
                 {| swath_right := decode (data_zero sonar_msg);
                    swath_left := decode (data_one sonar_msg);
                    state := current_state n;
                    altitude := current_altitude n |}) n))
    end.
Proof.
  unfold sonar_sub. unfold bind at 1, get.
  destruct (state_initialized n); simpl; [|reflexivity].
  unfold bind at 1, update at 1.
  destruct (deref n (current_swath n)) as [s|] eqn:Hs; [|reflexivity].
  rewrite (bind_eq_Ok _ _ _ _ _ (update_stored _ _ _ _ _ Hs)).
  rewrite (bind_eq_Ok _ _ _ _ _ (update_stored _ _ _ _ _ Hs)).
  reflexivity.
Qed.

Lemma dvl_sub_cases dvl_msg n :
  dvl_sub dvl_msg n =
  (Ok tt,
   if Req_dec_T (dvl_altitude dvl_msg) (-1) then n
   else with_current_altitude (dvl_altitude dvl_msg) n).
Proof. unfold dvl_sub. now destruct (Req_dec_T _ _). Qed.

Lemma dvl_sub_valid a n :
  a <> (-1)%R ->
  dvl_sub {| dvl_altitude := a |} n = (Ok tt, with_current_altitude a n).
Proof.
  intros H. rewrite dvl_sub_cases. simpl.
  now destruct (Req_dec_T a (-1)).
Qed.

Lemma sonar_sub_processed sonar_msg n :
  buffer_processed_coordinate_array (snd (sonar_sub sonar_msg n))
  = buffer_processed_coordinate_array n.
Proof.
  rewrite sonar_sub_cases.
  destruct (negb _); [reflexivity|]. now destruct (deref _ _).
Qed.

Lemma dvl_sub_processed dvl_msg n :
  buffer_processed_coordinate_array (snd (dvl_sub dvl_msg n))
  = buffer_processed_coordinate_array n.
Proof. rewrite dvl_sub_cases. simpl. now destruct (Req_dec_T _ _). Qed.

Lemma dvl_sub_queue dvl_msg n :
  heap (snd (dvl_sub dvl_msg n)) = heap n /\
  buffer_unprocessed_swaths (snd (dvl_sub dvl_msg n))
  = buffer_unprocessed_swaths n.
Proof. rewrite dvl_sub_cases. simpl. now destruct (Req_dec_T _ _). Qed.


(** ** The pipeline, step by step *)

Section PipelineFacts.

Variable rnd : R -> R.
Variable to_csv : csv_file -> Z -> result unit.
Variable swath_normalization : list pyfloat -> result (list pyfloat).
Variable normalized_kind : container.
Variable griddata :
  list R -> list R -> list pyfloat -> list R -> list R -> result raster.
Variable knn :
  R -> list R -> list R -> list pyfloat -> result (raster * raster * raster).

Local Abbreviation build := (construct_frame to_csv griddata knn).
Local Abbreviation build_phase := (mosaic_step to_csv griddata knn).
Local Abbreviation process :=
  (process_step rnd swath_normalization normalized_kind).
Local Abbreviation tick :=
  (run_full_pre_processing_pipeline rnd to_csv
      swath_normalization normalized_kind
                                    griddata knn).

(** [process_step], written as the chain of its stages. *)
Lemma process_step_chain n :
  process n =
  match buffer_unprocessed_swaths n with
  | [] => (Raise IndexError, n)
  | l :: q =>
    match deref n l with
    | None => (Raise DanglingRef, n)
    | Some s =>
      match swath_normalization (swath_right s) with
      | Raise e => (Raise e, n)
      | Ok r1 =>
        let s1 := set_swath_right r1 s in
        match swath_normalization (swath_left s) with
        | Raise e => (Raise e, with_heap (heap_store (heap n) l s1) n)
        | Ok l1 =>
          let s2 := set_swath_left l1 s1 in
          match blind_zone_removal n normalized_kind r1 with
          | Raise e => (Raise e, with_heap (heap_store (heap n) l s2) n)
          | Ok r2 =>
            let s3 := set_swath_right r2 s2 in
            match blind_zone_removal n normalized_kind l1 with
            | Raise e => (Raise e, with_heap (heap_store (heap n) l s3) n)
            | Ok l2 =>
              let s4 := set_swath_left l2 s3 in
              match slant_range_correction rnd n s4 with
              | Raise e => (Raise e, with_heap (heap_store (heap n) l s4) n)
              | Ok c =>
                let s5 := corrected s c in
                let n5 := with_heap (heap_store (heap n) l s5) n in
                match pose_correction n s5 with
                | Raise e => (Raise e, n5)
                | Ok processed_coordinate_array =>
                  (Ok tt,
                   with_unprocessed q
                     (with_processed
                        (buffer_processed_coordinate_array n
                         ++ [processed_coordinate_array]) n5))
                end
              end
            end
          end
        end
      end
    end
  end.
Proof.
  unfold process_step.
  unfold bind at 1, get.
  destruct (buffer_unprocessed_swaths n) as [|l q] eqn:Hq.
  { reflexivity. }
  unfold bind at 1, lift at 1. unfold py_index. simpl.
  unfold bind at 1, load at 1.
  destruct (deref n l) as [s|] eqn:Hs; [|reflexivity].
  unfold bind at 1, lift at 1.
  destruct (swath_normalization (swath_right s)) as [r1|e]; [|reflexivity].
  unfold bind at 1, update at 1. rewrite Hs.
  rewrite (bind_eq_Ok _ _ _ _ _ (load_stored _ _ _ _ Hs)).
  unfold bind at 1, lift at 1. simpl swath_left.
  destruct (swath_normalization (swath_left s)) as [l1|e]; [|reflexivity].
  rewrite (bind_eq_Ok _ _ _ _ _ (update_stored _ _ _ _ _ Hs)).
  rewrite (bind_eq_Ok _ _ _ _ _ (load_stored _ _ _ _ Hs)).
  unfold bind at 1, lift at 1. simpl swath_right.
  destruct (blind_zone_removal n normalized_kind r1) as [r2|e]; [|reflexivity].
  rewrite (bind_eq_Ok _ _ _ _ _ (update_stored _ _ _ _ _ Hs)).
  rewrite (bind_eq_Ok _ _ _ _ _ (load_stored _ _ _ _ Hs)).
  unfold bind at 1, lift at 1. simpl swath_left.
  destruct (blind_zone_removal n normalized_kind l1) as [l2|e]; [|reflexivity].
  rewrite (bind_eq_Ok _ _ _ _ _ (update_stored _ _ _ _ _ Hs)).
  rewrite (bind_eq_Ok _ _ _ _ _ (load_stored _ _ _ _ Hs)).
  unfold bind at 1, lift at 1.
  destruct (slant_range_correction rnd n _) as [c|e]; [|reflexivity].
  rewrite (bind_eq_Ok _ _ _ _ _ (update_stored _ _ _ _ _ Hs)).
  rewrite (bind_eq_Ok _ _ _ _ _ (load_stored _ _ _ _ Hs)).
  unfold bind at 1, lift at 1.
  change (set_swath_left (snd c) (set_swath_right (fst c) _))
    with (corrected s c).
  destruct (pose_correction n (corrected s c)) as [a|e]; [|reflexivity].
  unfold bind, modify. simpl. rewrite Hq. reflexivity.
Qed.


(** A build either raises before it has touched the node, or stores one
    frame, made of the scatter of the buffer, and advances the counter. *)
Lemma construct_frame_effect n :
  match build n with
  | (Raise e, n') => n' = n
  | (Ok m, n') =>
      (m_u m, m_v m, m_intensity_values m)
      = scatter (buffer_processed_coordinate_array n) /\
      n' = with_stored (processed_frame_counter n + 1)
             (stored n ++
              [{| frame_number := processed_frame_counter n;
                  raw_table :=
                    scatter_points (buffer_processed_coordinate_array n);
                  knn_table := m_knn_intensity_mean m;
                  knn_filtered_table := m_knn_filtered_image m |}]) n
  end.
Proof.
  unfold construct_frame, scatter_points.
  unfold bind at 1, get.
  destruct (scatter (buffer_processed_coordinate_array n))
    as [[u v] w].
  unfold bind at 1, lift at 1.
  destruct (py_min _) as [min_u|e]; [|reflexivity].
  unfold bind at 1, lift at 1.
  destruct (py_max _) as [max_u|e]; [|reflexivity].
  unfold bind at 1, lift at 1.
  destruct (linspace min_u max_u _) as [u_interval|e]; [|reflexivity].
  unfold bind at 1, lift at 1.
  destruct (py_min v) as [min_v|e]; [|reflexivity].
  unfold bind at 1, lift at 1.
  destruct (py_max v) as [max_v|e]; [|reflexivity].
  unfold bind at 1, lift at 1.
  destruct (linspace min_v max_v _) as [v_interval|e]; [|reflexivity].
  unfold bind at 1, lift at 1.
  destruct (griddata _ _ _ _ _) as [linear_frame|e]; [|reflexivity].
  unfold bind at 1, lift at 1.
  destruct (knn _ _ _ _) as [[[mean variance] filtered]|e]; [|reflexivity].
  unfold store_processed_frames.
  unfold bind, lift, get, modify, ret. simpl.
  destruct (to_csv raw_csv _) as [[]|e]; [|reflexivity].
  destruct (to_csv knn_csv _) as [[]|e]; [|reflexivity].
  destruct (to_csv knn_filtered_csv _) as [[]|e]; [|reflexivity].
  split; reflexivity.
Qed.

Lemma construct_frame_no_points n :
  scatter_size (buffer_processed_coordinate_array n) = 0%nat ->
  build n = (Raise ValueError, n).
Proof.
  unfold scatter_size, construct_frame.
  unfold bind at 1, get.
  destruct (scatter (buffer_processed_coordinate_array n))
    as [[u v] w]. simpl.
  destruct u; [reflexivity|discriminate].
Qed.

Lemma frame_due_spec k :
  frame_due k = true <-> (k mod 100 = 0 /\ 0 < k)%nat.
Proof.
  unfold frame_due. rewrite andb_true_iff, negb_true_iff.
  rewrite Nat.eqb_eq, Nat.eqb_neq. lia.
Qed.

Lemma mosaic_step_not_due n :
  frame_due (length (buffer_processed_coordinate_array n)) = false ->
  build_phase n = (Ok tt, n).
Proof.
  intros H. unfold mosaic_step, bind, get. now rewrite H.
Qed.

Lemma mosaic_step_due n :
  frame_due (length (buffer_processed_coordinate_array n)) = true ->
  build_phase n =
  match build n with
  | (Ok _, n1) =>
      (Ok tt,
       with_processed (skipn 50 (buffer_processed_coordinate_array n1)) n1)
  | (Raise e, n1) => (Raise e, n1)
  end.
Proof.
  intros H. unfold mosaic_step. unfold bind at 1, get.
  rewrite H. unfold bind, modify.
  now destruct (build n) as [[m|e] n1].
Qed.

Lemma tick_idle n :
  buffer_unprocessed_swaths n = [] -> tick n = (Ok tt, n).
Proof.
  intros H. unfold run_full_pre_processing_pipeline, bind, get.
  now rewrite H.
Qed.

Lemma tick_busy n :
  buffer_unprocessed_swaths n <> [] ->
  tick n = bind build_phase (fun _ => process) n.
Proof.
  intros H. unfold run_full_pre_processing_pipeline.
  unfold bind at 1, get.
  destruct (buffer_unprocessed_swaths n); [contradiction|reflexivity].
Qed.


(** The case analysis behind the facts about [process_step]: split on each
    stage in turn. *)
Ltac split_stages :=
  rewrite process_step_chain; cbv zeta;
  repeat match goal with
         | |- context [match ?x with _ => _ end] =>
             lazymatch x with
             | context [match _ with _ => _ end] => fail
             | _ => destruct x eqn:?
             end
         end.

Lemma process_step_buffers n :
  match process n with
  | (Ok _, n') =>
      (exists c, buffer_processed_coordinate_array n'
                 = buffer_processed_coordinate_array n ++ [c]) /\
      buffer_unprocessed_swaths n' = skipn 1 (buffer_unprocessed_swaths n)
  | (Raise _, n') =>
      buffer_processed_coordinate_array n'
      = buffer_processed_coordinate_array n /\
      buffer_unprocessed_swaths n' = buffer_unprocessed_swaths n
  end.
Proof. split_stages; simpl; eauto. Qed.

Lemma build_buffers n :
  buffer_processed_coordinate_array (snd (build n))
  = buffer_processed_coordinate_array n /\
  buffer_unprocessed_swaths (snd (build n)) = buffer_unprocessed_swaths n /\
  heap (snd (build n)) = heap n.
Proof.
  pose proof (construct_frame_effect n) as H.
  destruct (build n) as [[m|e] n1]; simpl.
  - destruct H as [_ ->]. now repeat split.
  - subst n1. now repeat split.
Qed.

(** The timer callback, case by case. *)
Lemma tick_cases n :
  tick n =
  if (length (buffer_unprocessed_swaths n) =? 0)%nat then (Ok tt, n)
  else if frame_due (length (buffer_processed_coordinate_array n)) then
    match build n with
    | (Ok _, n1) =>
        process
          (with_processed
             (skipn 50 (buffer_processed_coordinate_array n1)) n1)
    | (Raise e, n1) => (Raise e, n1)
    end
  else process n.
Proof.
  destruct (buffer_unprocessed_swaths n) as [|l q] eqn:Hq.
  - rewrite tick_idle by assumption. reflexivity.
  - rewrite tick_busy by congruence. simpl.
    destruct (frame_due _) eqn:Hd; unfold bind.
    + rewrite mosaic_step_due by assumption.
      now destruct (build n) as [[m|e] n1].
    + now rewrite mosaic_step_not_due by assumption.
Qed.

(** C3, in the form that holds of the code.  A tick with an empty queue of
    unprocessed swaths returns at once and builds nothing, whatever the
    length of the buffer of processed arrays.  A tick with a non-empty queue
    builds a frame exactly when that length is a positive multiple of 100,
    and does so before it processes and pops a swath: the build leaves the
    queue as it was, and the swath is processed in the state the build and
    the trimming of the buffer produce. *)
Theorem tick_builds_first_when_busy (n : Node) :
  tick n =
  (if (length (buffer_unprocessed_swaths n) =? 0)%nat then (Ok tt, n)
   else if frame_due (length (buffer_processed_coordinate_array n)) then
     match build n with
     | (Ok _, n1) =>
         process
           (with_processed
              (skipn 50 (buffer_processed_coordinate_array n1)) n1)
     | (Raise e, n1) => (Raise e, n1)
     end
   else process n) /\
  buffer_unprocessed_swaths (snd (build n)) = buffer_unprocessed_swaths n /\
  (forall k : nat, frame_due k = true <-> (k mod 100 = 0 /\ 0 < k)%nat).
Proof.
  split; [apply tick_cases|]. split; [apply build_buffers|].
  apply frame_due_spec.
Qed.

(** C7, in the form that holds of the code.  When a build is due and
    raises, nothing catches the exception: the tick raises it, and the node
    is left exactly as it was (nothing trimmed, stored or popped).  A build
    on a scatter without points always raises, on [min] of an empty
    sequence. *)
Theorem build_fault_propagates (n : Node) :
  buffer_unprocessed_swaths n <> [] ->
  frame_due (length (buffer_processed_coordinate_array n)) = true ->
  (forall e, fst (build n) = Raise e -> tick n = (Raise e, n)) /\
  (scatter_size (buffer_processed_coordinate_array n) = 0%nat ->
   tick n = (Raise ValueError, n)).
Proof.
  intros Hq Hd.
  assert (H : forall e, fst (build n) = Raise e -> tick n = (Raise e, n)).
  { intros e He. rewrite tick_cases, Hd.
    destruct (buffer_unprocessed_swaths n); [contradiction|]. simpl.
    pose proof (construct_frame_effect n) as Hb.
    destruct (build n) as [[m|e'] n1]; simpl in He; [discriminate|].
    congruence. }
  split; [exact H|].
  intros H0. apply H. now rewrite construct_frame_no_points.
Qed.






(** What a returning [process_step] has computed, stage by stage. *)
Lemma process_step_stages n n' l q s :
  buffer_unprocessed_swaths n = l :: q ->
  deref n l = Some s ->
  process n = (Ok tt, n') ->
  exists r1 l1 r2 l2 c a,
    swath_normalization (swath_right s) = Ok r1 /\
    swath_normalization (swath_left s) = Ok l1 /\
    blind_zone_removal n normalized_kind r1 = Ok r2 /\
    blind_zone_removal n normalized_kind l1 = Ok l2 /\
    slant_range_correction rnd n
      {| swath_right := r2; swath_left := l2;
         state := state s; altitude := altitude s |} = Ok c /\
    pose_correction n (corrected s c) = Ok a /\
    n' = with_unprocessed q
           (with_processed (buffer_processed_coordinate_array n ++ [a])
              (with_heap (heap_store (heap n) l (corrected s c)) n)).
Proof.
  intros Hq Hs. rewrite process_step_chain, Hq, Hs. cbv zeta.
  destruct (swath_normalization (swath_right s)) as [r1|] eqn:Hr1;
    [|discriminate].
  destruct (swath_normalization (swath_left s)) as [l1|] eqn:Hl1;
    [|discriminate].
  destruct (blind_zone_removal n normalized_kind r1) as [r2|] eqn:Hr2; [|discriminate].
  destruct (blind_zone_removal n normalized_kind l1) as [l2|] eqn:Hl2; [|discriminate].
  match goal with |- context [slant_range_correction rnd n ?x] =>
    change x with {| swath_right := r2; swath_left := l2;
                     state := state s; altitude := altitude s |}
  end.
  destruct (slant_range_correction rnd n _) as [c|] eqn:Hc; [|discriminate].
  destruct (pose_correction n (corrected s c)) as [a|] eqn:Ha;
    [|discriminate].
  intros [= <-]. exists r1, l1, r2, l2, c, a. repeat split; assumption.
Qed.

(** *** What every reachable state satisfies *)

Lemma length_heap_store h l s : length (heap_store h l s) = length h.
Proof.
  revert l. induction h as [|x h IH]; intros [|l]; simpl; auto.
Qed.

(** [process_step] allocates nothing and only ever pops the queue. *)
Lemma process_step_references n :
  let n' := snd (process n) in
  length (heap n') = length (heap n) /\
  current_swath n' = current_swath n /\
  (buffer_unprocessed_swaths n' = buffer_unprocessed_swaths n \/
   buffer_unprocessed_swaths n' = skipn 1 (buffer_unprocessed_swaths n)).
Proof.
  cbv zeta. split_stages; simpl; rewrite ?length_heap_store; auto.
Qed.

(** The array [process_step] appends has six rows of one length. *)
Lemma process_step_shape n c :
  buffer_processed_coordinate_array (snd (process n))
  = buffer_processed_coordinate_array n ++ [c] ->
  well_shaped c.
Proof.
  split_stages; simpl; intros E;
    try (apply (f_equal (@length _)) in E; rewrite length_app in E;
         simpl in E; lia).
  apply app_inv_head in E. injection E as <-.
  eexists. eapply pose_correction_shape. eassumption.
Qed.

Lemma tick_references n :
  let n' := snd (tick n) in
  length (heap n') = length (heap n) /\
  current_swath n' = current_swath n /\
  (buffer_unprocessed_swaths n' = buffer_unprocessed_swaths n \/
   buffer_unprocessed_swaths n' = skipn 1 (buffer_unprocessed_swaths n)).
Proof.
  cbv zeta. rewrite tick_cases.
  destruct (length (buffer_unprocessed_swaths n) =? 0)%nat; [auto|].
  destruct (frame_due _); [|apply process_step_references].
  pose proof (construct_frame_effect n) as Hb.
  destruct (build n) as [[m|e] n1]; [|subst n1; auto].
  destruct Hb as [_ ->].
  match goal with |- context [process ?x] =>
    pose proof (process_step_references x) as Hp
  end.
  exact Hp.
Qed.

(** In every reachable state there is one swath object, and every entry of
    the queue refers to it. *)
Lemma reachable_one_swath g s0 n :
  reachable rnd to_csv swath_normalization normalized_kind griddata knn
      g s0 n ->
  current_swath n = 0%nat /\
  length (heap n) = 1%nat /\
  Forall (fun l => l = 0%nat) (buffer_unprocessed_swaths n).
Proof.
  induction 1 as [|n msg _ IH|n msg _ IH|n msg _ IH|n _ IH].
  - simpl. auto.
  - destruct IH as (Hc & Hh & Hq). rewrite sonar_sub_cases.
    destruct (negb _); [auto|].
    destruct (deref n (current_swath n)); simpl; [|auto].
    rewrite length_heap_store. split; [exact Hc|]. split; [exact Hh|].
    apply Forall_app. split; [exact Hq|]. constructor; [exact Hc|constructor].
  - destruct (dvl_sub_queue msg n) as [Hh Hq].
    destruct IH as (Hc & Hl & Hf). rewrite Hh, Hq.
    rewrite dvl_sub_cases. simpl. now destruct (Req_dec_T _ _).
  - exact IH.
  - destruct IH as (Hc & Hh & Hq).
    destruct (tick_references n) as (H1 & H2 & H3).
    rewrite H1, H2. split; [exact Hc|]. split; [exact Hh|].
    destruct H3 as [-> | ->]; [exact Hq|].
    destruct (buffer_unprocessed_swaths n); simpl; [constructor|].
    now inversion Hq.
Qed.

(** So a queued reference is never dangling. *)
Lemma reachable_queue_allocated g s0 n l :
  reachable rnd to_csv swath_normalization normalized_kind griddata knn
      g s0 n ->
  In l (buffer_unprocessed_swaths n) ->
  exists s, deref n l = Some s.
Proof.
  intros Hr Hl. destruct (reachable_one_swath _ _ _ Hr) as (_ & Hh & Hq).
  rewrite Forall_forall in Hq. rewrite (Hq l Hl). unfold deref.
  destruct (heap n) as [|s h]; [discriminate|]. simpl. eauto.
Qed.

(** In every reachable state the buffered arrays are well shaped. *)
Lemma reachable_well_shaped g s0 n :
  reachable rnd to_csv swath_normalization normalized_kind griddata knn
      g s0 n ->
  Forall well_shaped (buffer_processed_coordinate_array n).
Proof.
  induction 1 as [|n msg _ IH|n msg _ IH|n msg _ IH|n _ IH].
  - constructor.
  - now rewrite sonar_sub_processed.
  - now rewrite dvl_sub_processed.
  - exact IH.
  - assert (Hp : forall x,
              Forall well_shaped (buffer_processed_coordinate_array x) ->
              Forall well_shaped
                     (buffer_processed_coordinate_array (snd (process x)))).
    { intros x Hx. pose proof (process_step_buffers x) as Hb.
      pose proof (process_step_shape x) as Hs.
      destruct (process x) as [[u|e] x']; simpl in *.
      - destruct Hb as [[c Hc] _]. rewrite Hc. apply Forall_app.
        split; [exact Hx|]. constructor; [now apply Hs|constructor].
      - destruct Hb as [-> _]. exact Hx. }
    rewrite tick_cases.
    destruct (length (buffer_unprocessed_swaths n) =? 0)%nat; [exact IH|].
    destruct (frame_due _); [|now apply Hp].
    destruct (build_buffers n) as [Hb _].
    destruct (build n) as [[m|e] n1]; cbn [snd] in Hb |- *;
      [|now rewrite Hb].
    apply Hp. cbn [buffer_processed_coordinate_array with_processed].
    rewrite Hb. clear - IH.
    rewrite <- (firstn_skipn 50 (buffer_processed_coordinate_array n)) in IH.
    now apply Forall_app in IH.
Qed.

End PipelineFacts.

(** ** A run on pings without samples *)

Lemma sin_geometry60 :
  sin (theta geometry60 + alpha geometry60 / 2) = (1 / 2)%R.
Proof.
  simpl. replace (0 + PI / 3 / 2)%R with (PI / 6)%R by lra. apply sin_PI6.
Qed.

(** Under [geometry60] an altitude of z/2 puts the boundary at index z. *)
Lemma index_FBR_geometry60 n (z : Z) :
  ssd n = geometry60 ->
  current_altitude n = (IZR z / 2)%R ->
  index_FBR n = Ok z.
Proof.
  intros Hg Ha. rewrite index_FBR_defined; rewrite Hg.
  - rewrite sin_geometry60, Ha. simpl res.
    replace (IZR z / 2 / (1 / 2) / 1)%R with (IZR z) by field.
    now rewrite ZfloorZ.
  - rewrite sin_geometry60. lra.
  - simpl. lra.
Qed.

Lemma blind_zone_removal_geometry60 n kind (z : Z) swath :
  ssd n = geometry60 ->
  current_altitude n = (IZR z / 2)%R ->
  (0 <= z <= Z.of_nat (length swath))%Z ->
  blind_zone_removal n kind swath
  = Ok (repeat NaN (Z.to_nat z) ++ skipn (Z.to_nat z) swath).
Proof.
  intros Hg Ha Hz. apply blind_zone_removal_prefix; [|exact Hz].
  now apply index_FBR_geometry60.
Qed.

(** Discharges the side conditions of the two lemmas above on a concrete
    node. *)
Ltac solve_geometry60 := try reflexivity; simpl; try lra; try lia.

Lemma slant_range_correction_nil rnd n s :
  swath_right s = [] -> slant_range_correction rnd n s = Ok ([], []).
Proof. intros H. unfold slant_range_correction. now rewrite H. Qed.

Lemma pose_correction_nil n s :
  swath_right s = [] -> swath_left s = [] ->
  pose_correction n s = Ok blank_array.
Proof.
  intros Hr Hl. unfold pose_correction.
  destruct (pitch_yaw_from_quaternion _ _ _ _) as [theta_p psi].
  rewrite Hr, Hl. reflexivity.
Qed.

Section BlankRun.

Variable rnd : R -> R.
Variable to_csv : csv_file -> Z -> result unit.
Variable kind : container.

Local Abbreviation tick :=
  (run_full_pre_processing_pipeline rnd to_csv normalization_id kind
                                    griddata_blank knn_blank).

Lemma blank_node_ping k q :
  sonar_sub blank_ping (blank_node k q) = (Ok tt, blank_node k (S q)).
Proof.
  rewrite sonar_sub_cases. simpl. unfold blank_node, with_unprocessed.
  simpl. do 2 f_equal. symmetry. apply (repeat_cons q 0%nat).
Qed.

Lemma blank_node_blind_zone k q :
  blind_zone_removal (blank_node k q) kind [] = Ok [].
Proof. now rewrite (blind_zone_removal_geometry60 _ _ 0) by solve_geometry60. Qed.

Lemma blank_node_process k q :
  process_step rnd normalization_id kind (blank_node k (S q))
  = (Ok tt, blank_node (S k) q).
Proof.
  rewrite process_step_chain.
  cbn [blank_node buffer_unprocessed_swaths repeat deref heap nth_error
       normalization_id swath_right swath_left blank_swath
       set_swath_right set_swath_left].
  cbv zeta.
  cbn [blank_node buffer_unprocessed_swaths repeat deref heap nth_error
       normalization_id swath_right swath_left blank_swath
       set_swath_right set_swath_left].
  rewrite (blank_node_blind_zone k (S q)).
  rewrite slant_range_correction_nil by reflexivity.
  rewrite pose_correction_nil by reflexivity.
  unfold blank_node, with_unprocessed, with_processed. simpl.
  do 2 f_equal. symmetry. apply (repeat_cons k blank_array).
Qed.

Lemma blank_node_tick k q :
  (k < 100)%nat ->
  tick (blank_node k (S q)) = (Ok tt, blank_node (S k) q).
Proof.
  intros Hk. rewrite tick_cases.
  cbn [blank_node buffer_unprocessed_swaths
       buffer_processed_coordinate_array repeat length Nat.eqb].
  rewrite repeat_length.
  replace (frame_due k) with false; [apply blank_node_process|].
  symmetry. apply not_true_is_false. intros H.
  apply frame_due_spec in H. destruct H as [Hm Hp].
  rewrite Nat.mod_small in Hm by assumption. lia.
Qed.

(** A pose, k + q pings without samples and k ticks lead to
    [blank_node k q]. *)
Lemma blank_node_reachable k q :
  (k <= 100)%nat ->
  reachable rnd to_csv normalization_id kind griddata_blank knn_blank
            geometry60 blank_swath (blank_node k q).
Proof.
  intros Hk. revert q. induction k as [|k IH]; intros q.
  - induction q as [|q IHq].
    + change (blank_node 0 0) with posed_node.
      apply reach_state, reach_init.
    + replace (blank_node 0 (S q))
        with (snd (sonar_sub blank_ping (blank_node 0 q)))
        by now rewrite blank_node_ping.
      now apply reach_sonar.
  - replace (blank_node (S k) q) with (snd (tick (blank_node k (S q))))
      by (rewrite blank_node_tick by lia; reflexivity).
    apply reach_timer, IH. lia.
Qed.

Lemma blank_node_scatter k :
  scatter_size (repeat blank_array k) = 0%nat.
Proof.
  unfold scatter_size. rewrite scatter_flat_map. simpl.
  induction k as [|k IH]; simpl; auto.
Qed.

Lemma blank_node_idle_tick k :
  tick (blank_node k 0) = (Ok tt, blank_node k 0).
Proof. now apply tick_idle. Qed.

Lemma blank_node_empty_build :
  tick (blank_node 100 1) = (Raise ValueError, blank_node 100 1).
Proof.
  rewrite tick_cases.
  change (frame_due _) with true. cbv iota.
  change (length (buffer_unprocessed_swaths (blank_node 100 1)) =? 0)%nat
    with false. cbv iota.
  now rewrite construct_frame_no_points by apply (blank_node_scatter 100).
Qed.

End BlankRun.

(** ** Sample counts through a whole processing step *)

Section ChannelLengths.

Variable rnd : R -> R.
Variable swath_normalization : list pyfloat -> result (list pyfloat).
Variable normalized_kind : container.

Hypothesis normalization_length : per_sample swath_normalization.

Local Abbreviation process :=
  (process_step rnd swath_normalization normalized_kind).

(** With a usable geometry, a boundary index inside the channels and a
    rounding that keeps the sign, [process_step] returns whenever the
    normalization of both channels does. *)
Lemma process_step_returns n l q s r1 l1 index :
  sign_preserving rnd ->
  buffer_unprocessed_swaths n = l :: q ->
  deref n l = Some s ->
  length (swath_right s) = length (swath_left s) ->
  swath_normalization (swath_right s) = Ok r1 ->
  swath_normalization (swath_left s) = Ok l1 ->
  index_FBR n = Ok index ->
  (0 <= index <= Z.of_nat (length (swath_right s)))%Z ->
  (0 < res (ssd n))%R ->
  exists n', process n = (Ok tt, n').
Proof.
  intros Hrnd Hq Hs Hlen Hr1 Hl1 Hi Hindex Hres.
  pose proof (normalization_length _ _ Hr1) as Hlr.
  pose proof (normalization_length _ _ Hl1) as Hll.
  rewrite process_step_chain, Hq, Hs, Hr1, Hl1. cbv zeta.
  rewrite !(blind_zone_removal_prefix _ _ _ _ Hi) by lia.
  match goal with |- context [slant_range_correction rnd n ?x] =>
    destruct (slant_range_correction_defined rnd n x Hrnd) as [c Hc];
      [|assumption|rewrite Hc]
  end.
  { simpl. rewrite !length_app, !repeat_length, !length_skipn. lia. }
  destruct (pose_correction_defined n (corrected s c)) as [a Ha].
  { destruct (slant_range_correction_lengths _ _ _ _ Hc) as [H1 H2].
    simpl. congruence. }
  rewrite Ha. eauto.
Qed.

(** C8. When the swath at the head of the queue has as many right-hand as
    left-hand samples and [process_step] returns, the two channels have
    equal lengths after normalization, after blind zone removal and after
    slant range correction, and every row of the array appended to the
    buffer has that last length. *)
Theorem channel_lengths_stay_equal
        (n n' : Node) (l : ref) (q : list ref) (s : swath_structure) :
  buffer_unprocessed_swaths n = l :: q ->
  deref n l = Some s ->
  length (swath_right s) = length (swath_left s) ->
  process n = (Ok tt, n') ->
  exists r1 l1 r2 l2 c a,
    swath_normalization (swath_right s) = Ok r1 /\
    swath_normalization (swath_left s) = Ok l1 /\
    length r1 = length l1 /\
    blind_zone_removal n normalized_kind r1 = Ok r2 /\
    blind_zone_removal n normalized_kind l1 = Ok l2 /\
    length r2 = length l2 /\
    slant_range_correction rnd n
      {| swath_right := r2; swath_left := l2;
         state := state s; altitude := altitude s |} = Ok c /\
    length (fst c) = length (snd c) /\
    pose_correction n (corrected s c) = Ok a /\
    shape6 (length (fst c)) a /\
    deref n' l = Some (corrected s c) /\
    buffer_processed_coordinate_array n'
    = buffer_processed_coordinate_array n ++ [a].
Proof.
  intros Hq Hs Hlen Hp.
  destruct (process_step_stages _ _ _ _ _ _ _ _ Hq Hs Hp)
    as (r1 & l1 & r2 & l2 & c & a & Hr1 & Hl1 & Hr2 & Hl2 & Hc & Ha & ->).
  exists r1, l1, r2, l2, c, a.
  assert (H1 : length r1 = length l1).
  { rewrite (normalization_length _ _ Hr1), (normalization_length _ _ Hl1).
    exact Hlen. }
  pose proof (blind_zone_removal_lengths _ _ _ _ _ _ H1 Hr2 Hl2) as H2.
  destruct (slant_range_correction_lengths _ _ _ _ Hc) as [H3 H4].
  destruct (pose_correction_shape _ _ _ Ha) as (H5 & _ & _).
  repeat match goal with |- _ /\ _ => split end;
    try assumption; try reflexivity.
  - congruence.
  - unfold with_unprocessed, with_processed, deref. simpl.
    apply nth_error_heap_store. apply nth_error_Some.
    unfold deref in Hs. congruence.
Qed.

End ChannelLengths.

(** ** Which altitude each stage reads *)

(** Sample 0 of the correction of a swath whose altitude is a small whole
    number, at range resolution 1: the bin read is the altitude itself. *)
Lemma computed_bin_whole rnd (z : Z) :
  exact_on_integers rnd ->
  (0 <= z)%Z -> (z * z <= 2 ^ 53)%Z ->
  computed_bin rnd 1 (IZR z) 0 = IZR z.
Proof.
  intros Hx Hz Hzz.
  assert (H0 : rnd 0%R = 0%R) by (apply (Hx 0%Z); simpl; lia).
  assert (Hsq : rnd (IZR z ^ 2)%R = (IZR z ^ 2)%R).
  { replace (IZR z ^ 2)%R with (IZR (z * z)) by (rewrite mult_IZR; ring).
    apply Hx. lia. }
  assert (Hroot : sqrt (IZR z ^ 2) = IZR z).
  { replace (IZR z ^ 2)%R with (Rsqr (IZR z)) by (unfold Rsqr; ring).
    apply sqrt_Rsqr. now apply IZR_le. }
  unfold computed_bin. simpl INR.
  replace (1 * 0)%R with 0%R by ring. rewrite H0.
  replace (0 ^ 2)%R with 0%R by ring.
  rewrite H0, Rplus_0_l, !Hsq, Hroot.
  assert (Hzr : rnd (IZR z) = IZR z) by (apply Hx; nia).
  rewrite Hzr. unfold Rdiv. rewrite Rinv_1, Rmult_1_r. exact Hzr.
Qed.

Lemma Zceil_IZR (z : Z) : Zceil (IZR z) = z.
Proof. apply Zceil_eq. lra. Qed.

(** Sample 0 of the corrected channels of a five-sample swath captured at
    a whole altitude of at most 4, at range resolution 1: the sample that
    many bins further out, on both sides. *)
Lemma slant_range_correction_first rnd (n : Node) (sw : swath_structure)
      (z : Z) (x y : Z) c :
  sign_preserving rnd ->
  exact_on_integers rnd ->
  res (ssd n) = 1%R ->
  altitude sw = IZR z ->
  (0 <= z <= 4)%Z ->
  length (swath_right sw) = 5%nat ->
  length (swath_left sw) = 5%nat ->
  nth (Z.to_nat z) (swath_right sw) NaN = Fin (IZR x) ->
  nth (Z.to_nat z) (swath_left sw) NaN = Fin (IZR y) ->
  (Z.abs x <= 2 ^ 53)%Z -> (Z.abs y <= 2 ^ 53)%Z ->
  slant_range_correction rnd n sw = Ok c ->
  nth 0 (fst c) NaN = Fin (IZR x) /\ nth 0 (snd c) NaN = Fin (IZR y).
Proof.
  intros Hs Hx Hres Ha Hz Hr Hl Hnx Hny Hbx Hby Hc.
  assert (H0 : rnd 0%R = 0%R) by (apply (Hx 0%Z); simpl; lia).
  assert (H1 : rnd 1%R = 1%R) by (apply (Hx 1%Z); simpl; lia).
  unfold slant_range_correction in Hc. rewrite Hr in Hc.
  pose proof (slant_loop_nth _ _ _ 0 Hc) as Hn.
  rewrite length_seq, seq_nth in Hn by lia.
  specialize (Hn ltac:(lia)). simpl plus in Hn.
  rewrite (slant_sample_in_range rnd _ _ _ _ 5 0 Hs) in Hn
    by (assumption || lia || lra).
  rewrite Hres, Ha, computed_bin_whole in Hn by (assumption || nia).
  rewrite ZfloorZ, Zceil_IZR in Hn.
  replace (Z.min z (Z.of_nat 5 - 1)) with z in Hn by lia.
  rewrite Hnx, Hny, !blend_values in Hn.
  replace (IZR z - IZR z)%R with 0%R in Hn by ring.
  rewrite H0 in Hn. replace (1 - 0)%R with 1%R in Hn by ring.
  rewrite H1, !Rmult_1_l, !Rmult_0_l, H0, !Rplus_0_r in Hn.
  rewrite !(Hx x Hbx), !(Hx y Hby) in Hn.
  injection Hn as <- <-. now split.
Qed.

(** C10. Blind zone removal reads the node's current altitude and no swath
    object; slant range correction reads the altitude stored in the swath
    and not the node's.  An altitude message leaves the queued swaths as
    they are and sets the altitude from which the next blind zone index is
    computed.  In [process_step] the blind zone is removed with the node as
    it is when the swath is processed, and the slant range is corrected
    with the altitude captured in the swath.  For one queued swath, a later
    altitude of 1 blanks two samples and a later altitude of 2 blanks
    four.  For the five samples of a ping, whatever altitude the node has
    by then, the correction returns sample 0 as it is when the altitude
    captured with the swath is 0, and returns the sample three bins
    further out in its place when the captured altitude is 3 (range
    resolution 1, a rounding that keeps the sign and the whole numbers up
    to 2^53). *)
Theorem blind_zone_reads_current_altitude :
  (forall (n : Node) (h : list swath_structure) kind (swath : list pyfloat),
      blind_zone_removal (with_heap h n) kind swath
      = blind_zone_removal n kind swath) /\
  (forall rnd (n : Node) (a : R) (s : swath_structure),
      slant_range_correction rnd (with_current_altitude a n) s
      = slant_range_correction rnd n s) /\
  (forall (n : Node) (dvl_msg : DVL),
      heap (snd (dvl_sub dvl_msg n)) = heap n /\
      buffer_unprocessed_swaths (snd (dvl_sub dvl_msg n))
      = buffer_unprocessed_swaths n) /\
  (forall (n : Node) (dvl_msg : DVL) (index : Z),
      dvl_altitude dvl_msg <> (-1)%R ->
      index_FBR (snd (dvl_sub dvl_msg n)) = Ok index ->
      index = Zfloor (dvl_altitude dvl_msg
                      / sin (theta (ssd n) + alpha (ssd n) / 2)
                      / res (ssd n))) /\
  (forall rnd swath_normalization kind (n n' : Node) l q s,
      buffer_unprocessed_swaths n = l :: q ->
      deref n l = Some s ->
      process_step rnd swath_normalization kind n = (Ok tt, n') ->
      exists r1 l1 r2 l2 c,
        swath_normalization (swath_right s) = Ok r1 /\
        swath_normalization (swath_left s) = Ok l1 /\
        blind_zone_removal n kind r1 = Ok r2 /\
        blind_zone_removal n kind l1 = Ok l2 /\
        slant_range_correction rnd n
          {| swath_right := r2; swath_left := l2;
             state := state s; altitude := altitude s |} = Ok c) /\
  (forall kind,
   let queued := snd (sonar_sub ping_5 posed_node) in
   let n1 := snd (dvl_sub {| dvl_altitude := 1 |} queued) in
   let n2 := snd (dvl_sub {| dvl_altitude := 2 |} queued) in
   exists s,
     deref n1 0%nat = Some s /\ deref n2 0%nat = Some s /\
     altitude s = 0%R /\ length (swath_right s) = 5%nat /\
     blind_zone_removal n1 kind (swath_right s)
     = Ok (NaN :: NaN :: skipn 2 (swath_right s)) /\
     blind_zone_removal n2 kind (swath_right s)
     = Ok (NaN :: NaN :: NaN :: NaN :: skipn 4 (swath_right s))) /\
  (forall rnd (a : R),
   sign_preserving rnd ->
   exact_on_integers rnd ->
   let n := with_current_altitude a posed_node in
   let captured := fun h : R =>
     {| swath_right := decode (data_zero ping_5);
        swath_left := decode (data_one ping_5);
        state := Odometry_default; altitude := h |} in
   exists c0 c3,
     slant_range_correction rnd n (captured 0%R) = Ok c0 /\
     slant_range_correction rnd n (captured 3%R) = Ok c3 /\
     nth 0 (fst c0) NaN = Fin 1 /\ nth 0 (snd c0) NaN = Fin 6 /\
     nth 0 (fst c3) NaN = Fin 4 /\ nth 0 (snd c3) NaN = Fin 9).
Proof.
  refine (conj _ (conj _ (conj _ (conj _ (conj _ (conj _ _)))))).
  - reflexivity.
  - reflexivity.
  - intros n dvl_msg. apply dvl_sub_queue.
  - intros n dvl_msg index Hvalid Hi.
    apply index_FBR_value in Hi. rewrite dvl_sub_cases in Hi.
    simpl in Hi. destruct (Req_dec_T _ _); [contradiction|exact Hi].
  - intros rnd sn kind n n' l q s Hq Hs Hp.
    destruct (process_step_stages rnd sn kind _ _ _ _ _ Hq Hs Hp)
      as (r1 & l1 & r2 & l2 & c & a & H).
    exists r1, l1, r2, l2, c. tauto.
  - intros kind. cbv zeta.
    rewrite !dvl_sub_valid by lra.
    eexists. split; [reflexivity|]. split; [reflexivity|].
    split; [reflexivity|]. split; [reflexivity|]. split.
    + now rewrite (blind_zone_removal_geometry60 _ _ 2) by solve_geometry60.
    + now rewrite (blind_zone_removal_geometry60 _ _ 4) by solve_geometry60.
  - intros rnd a Hs Hx. cbv zeta.
    set (n := with_current_altitude a posed_node).
    set (captured := fun h : R =>
           {| swath_right := decode (data_zero ping_5);
              swath_left := decode (data_one ping_5);
              state := Odometry_default; altitude := h |}).
    destruct (slant_range_correction_defined rnd n (captured 0%R) Hs)
      as [c0 H0]; [reflexivity|simpl; lra|].
    destruct (slant_range_correction_defined rnd n (captured 3%R) Hs)
      as [c3 H3]; [reflexivity|simpl; lra|].
    exists c0, c3. split; [exact H0|]. split; [exact H3|].
    destruct (slant_range_correction_first rnd n (captured 0%R) 0 1 6 c0)
      as [Hr0 Hl0]; try reflexivity; try assumption; try (simpl; lia).
    destruct (slant_range_correction_first rnd n (captured 3%R) 3 4 9 c3)
      as [Hr3 Hl3]; try reflexivity; try assumption; try (simpl; lia).
    auto.
Qed.

(** A rounding without error: on a node whose altitude has moved on to 7,
    the sample three bins out replaces sample 0 of a swath captured at
    altitude 3. *)
Lemma blind_zone_reads_current_altitude_witness :
  exists c3,
    slant_range_correction no_rounding (with_current_altitude 7 posed_node)
      {| swath_right := decode (data_zero ping_5);
         swath_left := decode (data_one ping_5);
         state := Odometry_default; altitude := 3 |} = Ok c3 /\
    nth 0 (fst c3) NaN = Fin 4 /\ nth 0 (snd c3) NaN = Fin 9.
Proof.
  destruct blind_zone_reads_current_altitude
    as (_ & _ & _ & _ & _ & _ & H).
  destruct (H no_rounding 7%R) as (c0 & c3 & _ & H3 & _ & _ & Hr & Hl).
  - intros x Hx. exact Hx.
  - intros z _. reflexivity.
  - exists c3. auto.
Defined.

(** ** The theorems at concrete inputs *)

(** C2 fails on the code.  After a pose, ping A is queued with altitude 0;
    an altitude message of 5 leaves the queued swath alone; ping B then
    overwrites the samples, the pose and the altitude of the swath queued
    for ping A, because both queue entries are the one object
    [self.current_swath]. *)
Theorem queued_swath_is_overwritten :
  let n1 := snd (sonar_sub ping_A posed_node) in
  let n2 := snd (dvl_sub {| dvl_altitude := 5 |} n1) in
  let n3 := snd (sonar_sub ping_B n2) in
  buffer_unprocessed_swaths n1 = [0%nat] /\
  deref n1 0%nat =
    Some {| swath_right := decode (data_zero ping_A);
            swath_left := decode (data_one ping_A);
            state := Odometry_default; altitude := 0 |} /\
  deref n2 0%nat = deref n1 0%nat /\
  buffer_unprocessed_swaths n3 = [0%nat; 0%nat] /\
  deref n3 0%nat =
    Some {| swath_right := decode (data_zero ping_B);
            swath_left := decode (data_one ping_B);
            state := Odometry_default; altitude := 5 |} /\
  deref n3 0%nat <> deref n1 0%nat.
Proof.
  cbv zeta. rewrite dvl_sub_valid by lra.
  refine (conj _ (conj _ (conj _ (conj _ (conj _ _)))));
    try reflexivity.
  intros E. injection E as _ _ E. lra.
Qed.

(** C4 fails on the code.  The boundary index is not clamped to the
    channel.  After an altitude message of 2 under the 60 degree geometry
    the index is 4, and on a channel of one sample the assignment does not
    replace min(4, 1) = 1 sample and keep the length: on a list it leaves
    four markers, so the channel has grown; on a numpy array it raises
    [ValueError].  With a ping of one sample per side queued in that state
    and a normalization that returns numpy arrays, the tick raises and the
    swath stays at the head of the queue. *)
Lemma blind_zone_removal_unclamped :
  let n := snd (dvl_sub {| dvl_altitude := 2 |} posed_node) in
  index_FBR n = Ok 4%Z /\
  blind_zone_removal n PyList [Fin 7] = Ok [NaN; NaN; NaN; NaN] /\
  length [NaN; NaN; NaN; NaN] <> length [Fin 7] /\
  blind_zone_removal n NdArray [Fin 7] = Raise ValueError /\
  (forall kind,
    blind_zone_removal n kind [Fin 7]
    <> Ok (repeat NaN (Z.to_nat (Z.min 4 1))
           ++ skipn (Z.to_nat (Z.min 4 1)) [Fin 7])) /\
  (forall rnd to_csv griddata knn,
    let queued := snd (sonar_sub ping_A n) in
    exists n',
      run_full_pre_processing_pipeline
        rnd to_csv normalization_id NdArray griddata knn queued
      = (Raise ValueError, n') /\
      buffer_unprocessed_swaths n' = buffer_unprocessed_swaths queued /\
      buffer_unprocessed_swaths queued = [0%nat]).
Proof.
  cbv zeta. rewrite dvl_sub_valid by lra. cbn [snd].
  assert (Hi : index_FBR (with_current_altitude 2 posed_node) = Ok 4%Z)
    by (apply index_FBR_geometry60; solve_geometry60).
  assert (Hl : blind_zone_removal (with_current_altitude 2 posed_node)
                                  PyList [Fin 7] = Ok [NaN; NaN; NaN; NaN])
    by now rewrite (blind_zone_removal_unfold _ _ _ _ Hi).
  assert (Ha : blind_zone_removal (with_current_altitude 2 posed_node)
                                  NdArray [Fin 7] = Raise ValueError)
    by now rewrite (blind_zone_removal_unfold _ _ _ _ Hi).
  split; [exact Hi|]. split; [exact Hl|]. split; [simpl; lia|].
  split; [exact Ha|]. split.
  - intros [|]; [rewrite Hl|rewrite Ha]; discriminate.
  - intros rnd to_csv griddata knn.
    set (queued := snd (sonar_sub ping_A
                          (with_current_altitude 2 posed_node))).
    assert (Hq : buffer_unprocessed_swaths queued = [0%nat]) by reflexivity.
    assert (Hiq : index_FBR queued = Ok 4%Z)
      by (apply index_FBR_geometry60; solve_geometry60).
    rewrite tick_cases, Hq. cbn [length Nat.eqb].
    change (frame_due (length (buffer_processed_coordinate_array queued)))
      with false. cbv iota.
    rewrite process_step_chain, Hq.
    change (deref queued 0%nat)
      with (Some {| swath_right := decode (data_zero ping_A);
                    swath_left := decode (data_one ping_A);
                    state := Odometry_default; altitude := 2 |}).
    cbn [swath_right swath_left normalization_id]. cbv zeta.
    rewrite (blind_zone_removal_unfold _ NdArray _ _ Hiq).
    eexists. split; [reflexivity|]. split; reflexivity.
Qed.

(** An altitude of 2 blanks four of five samples, on a list and on an
    array. *)
Lemma blind_zone_removal_in_range_witness :
  let n := snd (dvl_sub {| dvl_altitude := 2 |} posed_node) in
  let swath := [Fin 1; Fin 2; Fin 3; Fin 4; Fin 5] in
  index_FBR n = Ok 4%Z /\
  blind_zone_removal n PyList swath = Ok [NaN; NaN; NaN; NaN; Fin 5] /\
  blind_zone_removal n NdArray swath = Ok [NaN; NaN; NaN; NaN; Fin 5].
Proof.
  cbv zeta.
  assert (Hi : index_FBR (snd (dvl_sub {| dvl_altitude := 2 |} posed_node))
               = Ok 4%Z).
  { rewrite dvl_sub_valid by lra. apply index_FBR_geometry60; solve_geometry60. }
  assert (Hr : (0 <= 4 <= Z.of_nat (length [Fin 1; Fin 2; Fin 3; Fin 4;
                                             Fin 5]))%Z)
    by (simpl; lia).
  split; [exact Hi|]. split.
  - destruct (blind_zone_removal_in_range _ PyList _ 4%Z Hi Hr)
      as (_ & out & Hout & -> & _). exact Hout.
  - destruct (blind_zone_removal_in_range _ NdArray _ 4%Z Hi Hr)
      as (_ & out & Hout & -> & _). exact Hout.
Defined.

Lemma sqrt2_between : (1 < sqrt 2 < 2)%R.
Proof.
  pose proof (sqrt_pos 2) as Hp.
  pose proof (sqrt_sqrt 2 ltac:(lra)) as Hs. nra.
Qed.

(** Three samples per side at altitude 1 and range resolution 1, without
    rounding error: the exact bin of sample 1 is the square root of 2, so
    the corrected sample blends bins 1 and 2 with the weights
    [2 - sqrt 2] and [sqrt 2 - 1]. *)
Lemma slant_range_correction_formula_witness :
  exists right' left',
    slant_range_correction no_rounding posed_node
      {| swath_right := [Fin 10; Fin 20; Fin 30];
         swath_left := [Fin 40; Fin 50; Fin 60];
         state := Odometry_default; altitude := 1 |} = Ok (right', left') /\
    nth 1 right' NaN
    = Fin ((1 - (sqrt 2 - 1)) * 20 + (sqrt 2 - 1) * 30) /\
    nth 1 left' NaN
    = Fin ((1 - (sqrt 2 - 1)) * 50 + (sqrt 2 - 1) * 60).
Proof.
  destruct (slant_range_correction_formula no_rounding posed_node
              {| swath_right := [Fin 10; Fin 20; Fin 30];
                 swath_left := [Fin 40; Fin 50; Fin 60];
                 state := Odometry_default; altitude := 1 |} 3)
    as (right' & left' & H & _ & _ & Hf & _).
  - intros x Hx. exact Hx.
  - reflexivity.
  - reflexivity.
  - simpl. lra.
  - exists right', left'. split; [exact H|].
    specialize (Hf 1%nat ltac:(lia)). cbv zeta in Hf.
    unfold no_rounding in Hf.
    change (res (ssd posed_node)) with 1%R in Hf.
    cbn [altitude swath_right swath_left INR] in Hf.
    replace (sqrt ((1 * 1) ^ 2 + 1 ^ 2) / 1)%R with (sqrt 2) in Hf
      by (replace ((1 * 1) ^ 2 + 1 ^ 2)%R with 2%R by ring;
          unfold Rdiv; now rewrite Rinv_1, Rmult_1_r).
    rewrite (Zfloor_eq 1) in Hf by (pose proof sqrt2_between; simpl; lra).
    rewrite (Zceil_eq 2) in Hf by (pose proof sqrt2_between; simpl; lra).
    destruct Hf as (_ & _ & Hr & Hl). split; [exact Hr|exact Hl].
Defined.

(** C3, as stated, fails once 100 pings have been queued and processed:
    the buffer holds 100 arrays, a frame is due, the queue is empty, and
    the tick returns without building anything, where a tick that
    considered the build first would not leave the node untouched. *)
Lemma idle_tick_builds_nothing :
  reachable no_rounding to_csv_ok normalization_id PyList
      griddata_blank knn_blank
            geometry60 blank_swath (blank_node 100 0) /\
  frame_due (length (buffer_processed_coordinate_array (blank_node 100 0)))
  = true /\
  buffer_unprocessed_swaths (blank_node 100 0) = [] /\
  run_full_pre_processing_pipeline no_rounding to_csv_ok normalization_id PyList
    griddata_blank knn_blank (blank_node 100 0)
  = (Ok tt, blank_node 100 0) /\
  tick_build_first no_rounding to_csv_ok
      normalization_id PyList griddata_blank knn_blank
                   (blank_node 100 0)
  <> (Ok tt, blank_node 100 0).
Proof.
  assert (Hd : frame_due (length (buffer_processed_coordinate_array
                                    (blank_node 100 0))) = true)
    by reflexivity.
  split; [apply blank_node_reachable; lia|].
  split; [exact Hd|]. split; [reflexivity|].
  split; [apply blank_node_idle_tick|].
  unfold tick_build_first, bind.
  rewrite mosaic_step_due by exact Hd.
  rewrite construct_frame_no_points by apply (blank_node_scatter 100).
  discriminate.
Qed.

(** C7, as stated, fails once 101 pings without samples have been queued
    and 100 of them processed: a frame is due on a scatter of no points,
    and the tick raises [ValueError] instead of skipping the build. *)
Lemma empty_build_is_fatal :
  reachable no_rounding to_csv_ok normalization_id PyList
      griddata_blank knn_blank
            geometry60 blank_swath (blank_node 100 1) /\
  frame_due (length (buffer_processed_coordinate_array (blank_node 100 1)))
  = true /\
  (scatter_size (buffer_processed_coordinate_array (blank_node 100 1)) < 3)%nat
  /\
  run_full_pre_processing_pipeline no_rounding to_csv_ok normalization_id PyList
    griddata_blank knn_blank (blank_node 100 1)
  = (Raise ValueError, blank_node 100 1) /\
  ~ (exists n',
        run_full_pre_processing_pipeline
            no_rounding to_csv_ok normalization_id PyList
          griddata_blank knn_blank (blank_node 100 1) = (Ok tt, n')).
Proof.
  pose proof (blank_node_empty_build no_rounding to_csv_ok PyList) as Ht.
  split; [apply blank_node_reachable; lia|].
  split; [reflexivity|]. split.
  - change (buffer_processed_coordinate_array (blank_node 100 1))
      with (repeat blank_array 100).
    rewrite blank_node_scatter. lia.
  - split; [exact Ht|]. intros [n' Hn']. rewrite Ht in Hn'. discriminate.
Qed.

(** The build that is due after 100 pings without samples raises, and so
    does the tick. *)
Lemma build_fault_propagates_witness :
  run_full_pre_processing_pipeline no_rounding to_csv_ok
      normalization_id NdArray
    griddata_blank knn_blank (blank_node 100 1)
  = (Raise ValueError, blank_node 100 1).
Proof.
  apply (build_fault_propagates no_rounding to_csv_ok normalization_id NdArray
                                griddata_blank knn_blank (blank_node 100 1)).
  - discriminate.
  - reflexivity.
  - apply (blank_node_scatter 100).
Defined.


(** Processing ping A, of one sample per side, appends an array of one
    column. *)
Lemma channel_lengths_stay_equal_witness :
  exists n' a,
    process_step no_rounding normalization_id NdArray
                 (snd (sonar_sub ping_A posed_node))
    = (Ok tt, n') /\
    buffer_processed_coordinate_array n' = [a] /\ shape6 1 a.
Proof.
  set (n := snd (sonar_sub ping_A posed_node)).
  set (s := {| swath_right := decode (data_zero ping_A);
               swath_left := decode (data_one ping_A);
               state := Odometry_default; altitude := 0 |}).
  assert (Hq : buffer_unprocessed_swaths n = [0%nat]) by reflexivity.
  assert (Hs : deref n 0%nat = Some s) by reflexivity.
  assert (Hlen : length (swath_right s) = length (swath_left s))
    by reflexivity.
  assert (Hid : per_sample normalization_id)
    by (intros l l' [= <-]; reflexivity).
  assert (Hi : index_FBR n = Ok 0%Z)
    by (apply index_FBR_geometry60; solve_geometry60).
  destruct (process_step_returns no_rounding normalization_id NdArray Hid
              n 0%nat [] s _ _ 0%Z (fun x Hx => Hx) Hq Hs Hlen
              eq_refl eq_refl Hi) as [n' Hn'].
  { simpl. lia. }
  { simpl. lra. }
  destruct (channel_lengths_stay_equal no_rounding normalization_id NdArray
              Hid
              n n' 0%nat [] s Hq Hs Hlen Hn')
    as (r1 & l1 & r2 & l2 & c & a & Hr1 & _ & _ & Hr2 & _ & _ & Hc
        & _ & _ & Hshape & _ & Hbuf).
  exists n', a. split; [exact Hn'|]. split; [exact Hbuf|].
  injection Hr1 as <-.
  rewrite (blind_zone_removal_geometry60 n _ 0) in Hr2 by solve_geometry60.
  injection Hr2 as <-.
  destruct (slant_range_correction_lengths _ _ _ _ Hc) as [H1 _].
  now rewrite H1 in Hshape.
Defined.

(** * Further properties of the node *)

(** Splits a goal about [process_step] on each of its stages in turn. *)
Ltac stage_cases :=
  rewrite process_step_chain; cbv zeta;
  repeat match goal with
         | |- context [match ?x with _ => _ end] =>
             lazymatch x with
             | context [match _ with _ => _ end] => fail
             | _ => destruct x eqn:?
             end
         end.

Section NodeFacts.

Variable rnd : R -> R.
Variable to_csv : csv_file -> Z -> result unit.
Variable swath_normalization : list pyfloat -> result (list pyfloat).
Variable normalized_kind : container.
Variable griddata :
  list R -> list R -> list pyfloat -> list R -> list R -> result raster.
Variable knn :
  R -> list R -> list R -> list pyfloat -> result (raster * raster * raster).

Local Abbreviation build := (construct_frame to_csv griddata knn).
Local Abbreviation process :=
  (process_step rnd swath_normalization normalized_kind).
Local Abbreviation tick :=
  (run_full_pre_processing_pipeline rnd to_csv
      swath_normalization normalized_kind
                                    griddata knn).
Local Abbreviation reach :=
  (reachable rnd to_csv swath_normalization normalized_kind griddata knn).

(** ** What the timer callback leaves alone *)

Lemma process_step_settings n :
  let n' := snd (process n) in
  ssd n' = ssd n /\
  current_altitude n' = current_altitude n /\
  current_state n' = current_state n /\
  state_initialized n' = state_initialized n /\
  processed_frame_counter n' = processed_frame_counter n /\
  stored n' = stored n.
Proof. cbv zeta. stage_cases; simpl; auto 10. Qed.

Lemma tick_settings n :
  let n' := snd (tick n) in
  ssd n' = ssd n /\
  current_altitude n' = current_altitude n /\
  current_state n' = current_state n /\
  state_initialized n' = state_initialized n.
Proof.
  cbv zeta. rewrite tick_cases.
  destruct (length (buffer_unprocessed_swaths n) =? 0)%nat; [auto|].
  destruct (frame_due _).
  - pose proof (construct_frame_effect to_csv griddata knn n) as Hb.
    destruct (build n) as [[m|e] n1]; [|subst n1; auto].
    destruct Hb as [_ ->].
    match goal with |- context [process ?x] =>
      destruct (process_step_settings x) as (H1 & H2 & H3 & H4 & _)
    end.
    rewrite H1, H2, H3, H4. auto.
  - destruct (process_step_settings n) as (H1 & H2 & H3 & H4 & _). auto.
Qed.

(** ** The first pose *)

(** X1. Until the first pose arrives the node is as constructed, but for its
    altitude: pings have been dropped and ticks have done nothing. *)
Theorem uninitialized_is_fresh g s0 n :
  reach g s0 n ->
  state_initialized n = false ->
  n = with_current_altitude (current_altitude n) (init g s0).
Proof.
  induction 1 as [|n msg _ IH|n msg _ IH|n msg _ IH|n _ IH]; intros Hi.
  - reflexivity.
  - rewrite sonar_sub_cases in Hi |- *.
    destruct (state_initialized n) eqn:E; simpl in Hi |- *.
    + destruct (deref n (current_swath n)); simpl in Hi; congruence.
    + now apply IH.
  - rewrite dvl_sub_cases in Hi |- *. simpl in Hi |- *.
    destruct (Req_dec_T _ _); [now apply IH|].
    simpl in Hi. rewrite (IH Hi). reflexivity.
  - discriminate.
  - destruct (tick_settings n) as (_ & _ & _ & H4). rewrite H4 in Hi.
    assert (Hq : buffer_unprocessed_swaths n = [])
      by (rewrite (IH Hi); reflexivity).
    rewrite tick_idle by assumption. now apply IH.
Qed.

(** ** The queue of unprocessed swaths *)

Lemma reachable_current_swath g s0 n :
  reach g s0 n -> exists s, deref n (current_swath n) = Some s.
Proof.
  intros Hr.
  destruct (reachable_one_swath _ _ _ _ _ _ _ _ _ Hr) as (Hc & Hh & _).
  rewrite Hc. unfold deref.
  destruct (heap n) as [|s h]; [discriminate|]. simpl. eauto.
Qed.

Lemma tick_queue n :
  match tick n with
  | (Ok _, n') =>
      buffer_unprocessed_swaths n' = tl (buffer_unprocessed_swaths n)
  | (Raise _, n') =>
      buffer_unprocessed_swaths n' = buffer_unprocessed_swaths n
  end.
Proof.
  rewrite tick_cases.
  destruct (buffer_unprocessed_swaths n) as [|l q] eqn:Hq;
    [simpl; now rewrite Hq|].
  cbn [length Nat.eqb].
  assert (Hp : forall x,
            buffer_unprocessed_swaths x = l :: q ->
            match process x with
            | (Ok _, n') => buffer_unprocessed_swaths n' = q
            | (Raise _, n') => buffer_unprocessed_swaths n' = l :: q
            end).
  { intros x Hx.
    pose proof (process_step_buffers rnd swath_normalization normalized_kind x)
      as Hb.
    destruct (process x) as [[u|e] n']; rewrite Hx in Hb; tauto. }
  destruct (frame_due _); [|now apply Hp].
  pose proof (construct_frame_effect to_csv griddata knn n) as Hb.
  destruct (build n) as [[m|e] n1]; [|now subst n1].
  destruct Hb as [_ ->]. now apply Hp.
Qed.

(** X2. The queue is first in, first out.  On a node that has seen a pose a
    ping adds one entry at the tail; before that it changes nothing.
    Altitude and pose messages leave the queue alone.  A tick that returns
    has removed the head, a tick that raises has removed nothing. *)
Theorem queue_is_fifo g s0 n :
  reach g s0 n ->
  (forall sonar_msg,
      state_initialized n = true ->
      buffer_unprocessed_swaths (snd (sonar_sub sonar_msg n))
      = buffer_unprocessed_swaths n ++ [current_swath n]) /\
  (forall sonar_msg,
      state_initialized n = false -> sonar_sub sonar_msg n = (Ok tt, n)) /\
  (forall dvl_msg,
      buffer_unprocessed_swaths (snd (dvl_sub dvl_msg n))
      = buffer_unprocessed_swaths n) /\
  (forall state_msg,
      buffer_unprocessed_swaths (snd (state_sub state_msg n))
      = buffer_unprocessed_swaths n) /\
  match tick n with
  | (Ok _, n') =>
      buffer_unprocessed_swaths n' = tl (buffer_unprocessed_swaths n)
  | (Raise _, n') =>
      buffer_unprocessed_swaths n' = buffer_unprocessed_swaths n
  end.
Proof.
  intros Hr. refine (conj _ (conj _ (conj _ (conj _ _)))).
  - intros msg Hi. rewrite sonar_sub_cases, Hi.
    destruct (reachable_current_swath _ _ _ Hr) as [s Hs].
    rewrite Hs. reflexivity.
  - intros msg Hi. rewrite sonar_sub_cases, Hi. reflexivity.
  - intros msg. apply dvl_sub_queue.
  - reflexivity.
  - apply tick_queue.
Qed.

(** X3. Every queued swath is the last ping.  After a ping on a node that has
    seen a pose, each entry of the queue, however long ago it was
    appended, yields the samples of that ping with the pose and altitude
    current at its arrival. *)
Theorem queued_swaths_hold_last_ping g s0 n sonar_msg :
  reach g s0 n ->
  state_initialized n = true ->
  let n' := snd (sonar_sub sonar_msg n) in
  forall l, In l (buffer_unprocessed_swaths n') ->
            deref n' l = Some (ping_swath sonar_msg n).
Proof.
  intros Hr Hi n' l Hl.
  assert (Hr' : reach g s0 n') by now apply reach_sonar.
  destruct (reachable_one_swath _ _ _ _ _ _ _ _ _ Hr') as (_ & _ & Hq).
  rewrite Forall_forall in Hq. rewrite (Hq l Hl).
  destruct (reachable_one_swath _ _ _ _ _ _ _ _ _ Hr) as (Hc & _ & _).
  destruct (reachable_current_swath _ _ _ Hr) as [s Hs].
  subst n'. rewrite sonar_sub_cases, Hi, Hs. cbn [negb snd].
  rewrite Hc in *. unfold deref in *. cbn [heap with_unprocessed with_heap].
  apply nth_error_heap_store. apply nth_error_Some. congruence.
Qed.

(** ** The stored frames *)

Lemma tick_stored n :
  let n' := snd (tick n) in
  (stored n' = stored n /\
   processed_frame_counter n' = processed_frame_counter n) \/
  (buffer_unprocessed_swaths n <> [] /\
   frame_due (length (buffer_processed_coordinate_array n)) = true /\
   processed_frame_counter n' = (processed_frame_counter n + 1)%Z /\
   exists knn_mean knn_filtered,
     stored n' =
     stored n ++
     [{| frame_number := processed_frame_counter n;
         raw_table := scatter_points (buffer_processed_coordinate_array n);
         knn_table := knn_mean;
         knn_filtered_table := knn_filtered |}]).
Proof.
  cbv zeta. rewrite tick_cases.
  destruct (buffer_unprocessed_swaths n) as [|l q] eqn:Hq; [now left|].
  cbn [length Nat.eqb].
  destruct (frame_due _) eqn:Hd.
  - pose proof (construct_frame_effect to_csv griddata knn n) as Hb.
    destruct (build n) as [[m|e] n1]; [|subst n1; now left].
    destruct Hb as [_ ->]. right.
    match goal with |- context [process ?x] =>
      destruct (process_step_settings x) as (_ & _ & _ & _ & H5 & H6)
    end.
    rewrite H5, H6. split; [discriminate|]. split; [reflexivity|].
    split; [reflexivity|].
    exists (m_knn_intensity_mean m), (m_knn_filtered_image m). reflexivity.
  - destruct (process_step_settings n) as (_ & _ & _ & _ & H5 & H6).
    now left.
Qed.

(** X4. The frames written so far are numbered 1, 2, 3, ... without gap or
    repetition, and the counter is the number of the next frame.  A tick
    writes at most one frame, only when the queue is non-empty and a frame
    is due, and its raw table is the scatter of the whole buffer as it was
    before the first 50 arrays are dropped. *)
Theorem stored_frames_numbered g s0 n :
  reach g s0 n ->
  processed_frame_counter n = (Z.of_nat (length (stored n)) + 1)%Z /\
  map frame_number (stored n)
  = map (fun i => (Z.of_nat i + 1)%Z) (seq 0 (length (stored n))) /\
  (let n' := snd (tick n) in
   stored n' = stored n \/
   (buffer_unprocessed_swaths n <> [] /\
    frame_due (length (buffer_processed_coordinate_array n)) = true /\
    exists knn_mean knn_filtered,
      stored n' =
      stored n ++
      [{| frame_number := processed_frame_counter n;
          raw_table := scatter_points (buffer_processed_coordinate_array n);
          knn_table := knn_mean;
          knn_filtered_table := knn_filtered |}])).
Proof.
  intros Hr.
  assert (Hinv : processed_frame_counter n
                 = (Z.of_nat (length (stored n)) + 1)%Z /\
                 map frame_number (stored n)
                 = map (fun i => (Z.of_nat i + 1)%Z)
                       (seq 0 (length (stored n)))).
  { induction Hr as [|n msg _ IH|n msg _ IH|n msg _ IH|n _ IH].
    - now split.
    - rewrite sonar_sub_cases. destruct (negb _); [exact IH|].
      now destruct (deref _ _).
    - rewrite dvl_sub_cases. simpl. now destruct (Req_dec_T _ _).
    - exact IH.
    - destruct IH as [Hc Hm].
      destruct (tick_stored n)
        as [[-> ->] | (_ & _ & -> & k1 & k2 & ->)]; [now split|].
      rewrite length_app, map_app. simpl length.
      rewrite Nat.add_1_r, seq_S, map_app, <- Hm. simpl.
      rewrite Hc. split; [lia|reflexivity]. }
  destruct Hinv as [Hc Hm]. split; [exact Hc|]. split; [exact Hm|].
  destruct (tick_stored n) as [[H _] | (H1 & H2 & _ & H3)]; [now left|].
  right. auto.
Qed.

(** ** Processing in place *)

Lemma tick_returns n n' l q s :
  buffer_unprocessed_swaths n = l :: q ->
  deref n l = Some s ->
  tick n = (Ok tt, n') ->
  exists c a front,
    buffer_unprocessed_swaths n' = q /\
    buffer_processed_coordinate_array n' = front ++ [a] /\
    row4 a = fst c /\ row5 a = snd c /\
    heap n' = heap_store (heap n) l (corrected s c).
Proof.
  intros Hq Hs. rewrite tick_cases, Hq. cbn [length Nat.eqb].
  assert (Hp : forall x,
             buffer_unprocessed_swaths x = l :: q ->
             heap x = heap n ->
             process x = (Ok tt, n') ->
             exists c a front,
               buffer_unprocessed_swaths n' = q /\
               buffer_processed_coordinate_array n' = front ++ [a] /\
               row4 a = fst c /\ row5 a = snd c /\
               heap n' = heap_store (heap n) l (corrected s c)).
  { intros x Hx Hh Hp.
    assert (Hsx : deref x l = Some s) by (unfold deref in *; now rewrite Hh).
    destruct (process_step_stages _ _ _ _ _ _ _ _ Hx Hsx Hp)
      as (r1 & l1 & r2 & l2 & c & a & _ & _ & _ & _ & _ & Ha & ->).
    apply pose_correction_shape in Ha. destruct Ha as (_ & H4 & H5).
    exists c, a, (buffer_processed_coordinate_array x).
    cbn. rewrite Hh. auto. }
  destruct (frame_due _); [|now apply Hp].
  pose proof (construct_frame_effect to_csv griddata knn n) as Hb.
  destruct (build n) as [[m|e] n1]; [|discriminate].
  destruct Hb as [_ ->]. now apply Hp.
Qed.

(** X5. A tick works on the swath object itself.  After a tick that returns,
    the node's swath object holds the corrected samples that the tick has
    put in rows 4 and 5 of the new array, with the pose and altitude it
    had; every entry still in the queue refers to that corrected swath, so
    a later tick without a ping in between starts from the corrected
    samples. *)
Theorem tick_corrects_in_place g s0 n :
  reach g s0 n ->
  buffer_unprocessed_swaths n <> [] ->
  fst (tick n) = Ok tt ->
  let n' := snd (tick n) in
  exists before after a front,
    deref n (current_swath n) = Some before /\
    deref n' (current_swath n') = Some after /\
    state after = state before /\
    altitude after = altitude before /\
    buffer_processed_coordinate_array n' = front ++ [a] /\
    row4 a = swath_right after /\
    row5 a = swath_left after /\
    forall l, In l (buffer_unprocessed_swaths n') ->
              deref n' l = Some after.
Proof.
  intros Hr Hq Hok n'.
  assert (Hr' : reach g s0 n') by now apply reach_timer.
  destruct (reachable_one_swath _ _ _ _ _ _ _ _ _ Hr) as (Hc & Hh & Hf).
  destruct (reachable_one_swath _ _ _ _ _ _ _ _ _ Hr') as (Hc' & _ & Hf').
  destruct (reachable_current_swath _ _ _ Hr) as [s Hs].
  destruct (buffer_unprocessed_swaths n) as [|l q] eqn:Hn; [contradiction|].
  assert (l = 0%nat) as -> by now inversion Hf.
  rewrite Hc in Hs. rewrite Hc, Hc'.
  assert (Ht : tick n = (Ok tt, n')).
  { subst n'. destruct (tick n) as [[[]|e] x]; [reflexivity|discriminate]. }
  destruct (tick_returns _ _ _ _ _ Hn Hs Ht)
    as (c & a & front & _ & Hp & H4 & H5 & Hheap).
  assert (Hd : deref n' 0%nat = Some (corrected s c)).
  { unfold deref. rewrite Hheap. apply nth_error_heap_store. lia. }
  exists s, (corrected s c), a, front.
  repeat (split; [first [assumption|reflexivity]|]).
  intros k Hk. rewrite Forall_forall in Hf'. now rewrite (Hf' k Hk).
Qed.

(** ** The grid of a build *)

Lemma fold_left_Rmin_le (t : list R) (x : R) : (fold_left Rmin t x <= x)%R.
Proof.
  revert x. induction t as [|a t IH]; intros x; simpl; [lra|].
  eapply Rle_trans; [apply IH|apply Rmin_l].
Qed.

Lemma fold_left_Rmax_ge (t : list R) (x : R) : (x <= fold_left Rmax t x)%R.
Proof.
  revert x. induction t as [|a t IH]; intros x; simpl; [lra|].
  eapply Rle_trans; [apply Rmax_l|apply IH].
Qed.

Lemma fold_left_Rmax_mirror (t : list R) (x : R) :
  fold_left Rmax t x
  = (- fold_left Rmin (map (fun element => element * -1) t) (x * -1))%R.
Proof.
  revert x. induction t as [|a t IH]; intros x; simpl; [lra|].
  rewrite IH. do 2 f_equal.
  unfold Rmax, Rmin.
  destruct (Rle_dec x a), (Rle_dec (x * -1) (a * -1)); lra.
Qed.

Lemma fold_left_Rmin_mirror (t : list R) (x : R) :
  fold_left Rmin t x
  = (- fold_left Rmax (map (fun element => element * -1) t) (x * -1))%R.
Proof.
  revert x. induction t as [|a t IH]; intros x; simpl; [lra|].
  rewrite IH. do 2 f_equal.
  unfold Rmax, Rmin.
  destruct (Rle_dec x a), (Rle_dec (x * -1) (a * -1)); lra.
Qed.

Lemma linspace_length (start stop : R) (num : Z) :
  (0 <= num)%Z ->
  exists l, linspace start stop num = Ok l /\ Z.of_nat (length l) = num.
Proof.
  intros H. unfold linspace. destruct (Z.ltb_spec num 0); [lia|].
  destruct (Z.eqb_spec num 1); [subst; now exists [start]|].
  eexists. split; [reflexivity|]. rewrite length_map, length_seq. lia.
Qed.

Lemma py_int_nonneg (x : R) : (0 <= x)%R -> (0 <= py_int x)%Z.
Proof.
  intros H. unfold py_int. destruct (Rlt_dec x 0); [lra|].
  now apply Zfloor_nonneg.
Qed.

Lemma scatter_lengths (buffer : list coordinate_array) u v w :
  Forall well_shaped buffer ->
  scatter buffer = (u, v, w) ->
  length u = length v.
Proof.
  intros Hw. rewrite scatter_flat_map. intros H. injection H as <- <- _.
  induction Hw as [|c b (N & H0 & H1 & H2 & H3 & _) _ IH]; [reflexivity|].
  simpl. rewrite !length_app, IH. lia.
Qed.

(** X6. A build over a scatter that has points.  With at least one point in
    the scatter of well-shaped arrays, [min], [max] and [linspace] return:
    the u axis runs from -max(u) to -min(u) and the v axis from min(v) to
    max(v), each with as many points as the whole part of its extent (so
    none for an extent below 1).  [griddata] gets the points (v, -u) and
    these two axes.  A build raises only what [griddata], [knn] or the
    writing of one of the three files raises, and when it returns all
    three files have been written. *)
Theorem construct_frame_grid n u v intensity_values :
  scatter (buffer_processed_coordinate_array n) = (u, v, intensity_values) ->
  Forall well_shaped (buffer_processed_coordinate_array n) ->
  u <> [] ->
  let u_temp := map (fun element => (element * -1)%R) u in
  exists min_u max_u min_v max_v u_interval v_interval,
    py_min u = Ok (- max_u)%R /\ py_max u = Ok (- min_u)%R /\
    py_min v = Ok min_v /\ py_max v = Ok max_v /\
    (min_u <= max_u)%R /\ (min_v <= max_v)%R /\
    linspace min_u max_u (py_int (max_u - min_u)) = Ok u_interval /\
    linspace min_v max_v (py_int (max_v - min_v)) = Ok v_interval /\
    Z.of_nat (length u_interval) = py_int (max_u - min_u) /\
    Z.of_nat (length v_interval) = py_int (max_v - min_v) /\
    match build n with
    | (Ok m, _) =>
        griddata v u_temp intensity_values v_interval u_interval
        = Ok (m_linear_frame m) /\
        m_min_u m = py_int min_u /\ m_min_v m = py_int min_v /\
        forall file, to_csv file (processed_frame_counter n) = Ok tt
    | (Raise e, _) =>
        griddata v u_temp intensity_values v_interval u_interval = Raise e \/
        knn (res (ssd n)) u_temp v intensity_values = Raise e \/
        exists file, to_csv file (processed_frame_counter n) = Raise e
    end.
Proof.
  intros Hs Hw Hu u_temp.
  pose proof (scatter_lengths _ _ _ _ Hw Hs) as Hlen.
  destruct u as [|x t]; [contradiction|].
  destruct v as [|y s]; [discriminate|].
  subst u_temp.
  set (min_u := fold_left Rmin (map (fun element => element * -1)%R t)
                          (x * -1)%R).
  set (max_u := fold_left Rmax (map (fun element => element * -1)%R t)
                          (x * -1)%R).
  set (min_v := fold_left Rmin s y).
  set (max_v := fold_left Rmax s y).
  assert (Hmin_u : py_min (map (fun element => element * -1)%R (x :: t))
                   = Ok min_u) by reflexivity.
  assert (Hmax_u : py_max (map (fun element => element * -1)%R (x :: t))
                   = Ok max_u) by reflexivity.
  assert (Hmin_v : py_min (y :: s) = Ok min_v) by reflexivity.
  assert (Hmax_v : py_max (y :: s) = Ok max_v) by reflexivity.
  assert (Hule : (min_u <= max_u)%R).
  { eapply Rle_trans; [apply fold_left_Rmin_le|apply fold_left_Rmax_ge]. }
  assert (Hvle : (min_v <= max_v)%R).
  { eapply Rle_trans; [apply fold_left_Rmin_le|apply fold_left_Rmax_ge]. }
  destruct (linspace_length min_u max_u (py_int (max_u - min_u)))
    as (u_interval & Hui & Hul); [apply py_int_nonneg; lra|].
  destruct (linspace_length min_v max_v (py_int (max_v - min_v)))
    as (v_interval & Hvi & Hvl); [apply py_int_nonneg; lra|].
  exists min_u, max_u, min_v, max_v, u_interval, v_interval.
  split; [cbn [py_min]; f_equal; apply fold_left_Rmin_mirror|].
  split; [cbn [py_max]; f_equal; apply fold_left_Rmax_mirror|].
  do 8 (split; [first [reflexivity|assumption]|]).
  unfold construct_frame. unfold bind at 1, get. rewrite Hs.
  unfold bind at 1, lift at 1. rewrite Hmin_u.
  unfold bind at 1, lift at 1. rewrite Hmax_u.
  unfold bind at 1, lift at 1. rewrite Hui.
  unfold bind at 1, lift at 1. rewrite Hmin_v.
  unfold bind at 1, lift at 1. rewrite Hmax_v.
  unfold bind at 1, lift at 1. rewrite Hvi.
  unfold bind at 1, lift at 1.
  destruct (griddata _ _ _ _ _) as [linear_frame|e]; [|now left].
  unfold bind at 1, lift at 1.
  destruct (knn _ _ _ _) as [[[mean variance] filtered]|e];
    [|right; now left].
  unfold store_processed_frames.
  unfold bind, lift, get, modify, ret. simpl.
  destruct (to_csv raw_csv _) as [[]|e] eqn:E1; [|right; right; eauto].
  destruct (to_csv knn_csv _) as [[]|e] eqn:E2; [|right; right; eauto].
  destruct (to_csv knn_filtered_csv _) as [[]|e] eqn:E3;
    [|right; right; eauto].
  repeat split. now intros [].
Qed.

End NodeFacts.

(** A ping before the first pose: the node is still as constructed. *)
Lemma uninitialized_is_fresh_witness :
  snd (sonar_sub ping_5 (init geometry60 blank_swath))
  = with_current_altitude
      (current_altitude (snd (sonar_sub ping_5 (init geometry60 blank_swath))))
      (init geometry60 blank_swath).
Proof.
  apply (uninitialized_is_fresh no_rounding to_csv_ok
      normalization_id PyList griddata_blank
           knn_blank geometry60 blank_swath).
  - apply reach_sonar, reach_init.
  - reflexivity.
Defined.

(** The first ping after the first pose is queued. *)
Lemma queue_is_fifo_witness :
  buffer_unprocessed_swaths (snd (sonar_sub ping_5 posed_node))
  = buffer_unprocessed_swaths posed_node ++ [current_swath posed_node].
Proof.
  apply (queue_is_fifo no_rounding to_csv_ok
      normalization_id PyList griddata_blank knn_blank
           geometry60 blank_swath posed_node).
  - apply reach_state, reach_init.
  - reflexivity.
Defined.

(** Ping A, then ping B: the entry queued for ping A yields ping B. *)
Lemma queued_swaths_hold_last_ping_witness :
  deref (snd (sonar_sub ping_B (snd (sonar_sub ping_A posed_node))))
        (hd 0%nat (buffer_unprocessed_swaths
                     (snd (sonar_sub ping_B
                             (snd (sonar_sub ping_A posed_node))))))
  = Some (ping_swath ping_B (snd (sonar_sub ping_A posed_node))).
Proof.
  apply (queued_swaths_hold_last_ping no_rounding to_csv_ok
      normalization_id PyList griddata_blank
           knn_blank geometry60 blank_swath).
  - apply reach_sonar, reach_state, reach_init.
  - reflexivity.
  - simpl. auto.
Defined.

(** After 100 pings without samples and 100 ticks nothing is stored yet
    and the counter is 1. *)
Lemma stored_frames_numbered_witness :
  processed_frame_counter (blank_node 100 1)
  = (Z.of_nat (length (stored (blank_node 100 1))) + 1)%Z.
Proof.
  apply (stored_frames_numbered no_rounding to_csv_ok
      normalization_id PyList griddata_blank
           knn_blank geometry60 blank_swath (blank_node 100 1)).
  apply blank_node_reachable. lia.
Defined.

(** Two pings without samples, then one tick: the entry left in the queue
    yields the swath the tick has written. *)
Lemma tick_corrects_in_place_witness :
  exists after,
    forall l,
      In l (buffer_unprocessed_swaths
              (snd (run_full_pre_processing_pipeline
                      no_rounding to_csv_ok
                          normalization_id PyList griddata_blank knn_blank
                      (blank_node 0 2)))) ->
      deref (snd (run_full_pre_processing_pipeline
                    no_rounding to_csv_ok
                        normalization_id PyList griddata_blank knn_blank
                    (blank_node 0 2))) l
      = Some after.
Proof.
  destruct (tick_corrects_in_place no_rounding to_csv_ok
      normalization_id PyList griddata_blank
              knn_blank geometry60 blank_swath (blank_node 0 2))
    as (before & after & a & front & _ & _ & _ & _ & _ & _ & _ & H).
  - apply blank_node_reachable. lia.
  - discriminate.
  - rewrite blank_node_tick by lia. reflexivity.
  - exists after. exact H.
Defined.

(** One array of one sample per side: u is [1; 2] and v is [3; 4], so
    each axis has extent 1 and one point. *)
Lemma construct_frame_grid_witness :
  exists min_u max_u u_interval,
    linspace min_u max_u (py_int (max_u - min_u)) = Ok u_interval /\
    Z.of_nat (length u_interval) = py_int (max_u - min_u).
Proof.
  destruct (construct_frame_grid to_csv_ok griddata_blank knn_blank
              (with_processed [one_sample_array] posed_node)
              [1; 2]%R [3; 4]%R [Fin 20; Fin 10])
    as (min_u & max_u & min_v & max_v & u_interval & v_interval
        & _ & _ & _ & _ & _ & _ & Hu & _ & Hl & _).
  - reflexivity.
  - constructor; [|constructor]. exists 1%nat. now repeat split.
  - discriminate.
  - exists min_u, max_u, u_interval. now split.
Defined.

(** ** Altitude readings *)

Lemma with_current_altitude_twice a b n :
  with_current_altitude a (with_current_altitude b n)
  = with_current_altitude a n.
Proof. reflexivity. Qed.

Lemma with_current_altitude_same n :
  with_current_altitude (current_altitude n) n = n.
Proof. now destruct n. Qed.

Lemma after_dvl_invalid msgs n :
  Forall (fun x => dvl_altitude x = (-1)%R) msgs -> after_dvl msgs n = n.
Proof.
  intros H. revert n. induction H as [|x msgs Hx _ IH]; intros n; simpl.
  - reflexivity.
  - rewrite dvl_sub_cases. simpl.
    destruct (Req_dec_T _ _); [apply IH|contradiction].
Qed.

Lemma after_dvl_altitude_only msgs n :
  after_dvl msgs n
  = with_current_altitude (current_altitude (after_dvl msgs n)) n.
Proof.
  revert n. induction msgs as [|x msgs IH]; intros n; simpl.
  - symmetry. apply with_current_altitude_same.
  - rewrite dvl_sub_cases. simpl.
    destruct (Req_dec_T _ _); [apply IH|].
    fold (after_dvl msgs (with_current_altitude (dvl_altitude x) n)).
    rewrite IH at 1. apply with_current_altitude_twice.
Qed.

(** X7. The altitude in force is the last reading that is not -1.  After any
    run of readings the node differs from the node before only in its
    altitude, which is that of the last valid reading, however many
    readings of -1 follow it; a run of readings of -1 changes nothing. *)
Theorem dvl_keeps_last_valid_altitude
        (n : Node) (pre post : list DVL) (dvl_msg : DVL) :
  dvl_altitude dvl_msg <> (-1)%R ->
  Forall (fun x => dvl_altitude x = (-1)%R) post ->
  after_dvl (pre ++ dvl_msg :: post) n
  = with_current_altitude (dvl_altitude dvl_msg) n /\
  after_dvl post n = n.
Proof.
  intros Hv Hpost. split; [|now apply after_dvl_invalid].
  unfold after_dvl. rewrite fold_left_app. simpl.
  fold (after_dvl pre n).
  rewrite dvl_sub_cases. simpl.
  destruct (Req_dec_T _ _); [contradiction|].
  fold (after_dvl post
          (with_current_altitude (dvl_altitude dvl_msg) (after_dvl pre n))).
  rewrite after_dvl_invalid by assumption.
  rewrite (after_dvl_altitude_only pre n).
  apply with_current_altitude_twice.
Qed.

(** Readings 3, -1, 7, -1, -1 leave the altitude at 7. *)
Lemma dvl_keeps_last_valid_altitude_witness :
  after_dvl [ {| dvl_altitude := 3 |}; {| dvl_altitude := -1 |};
              {| dvl_altitude := 7 |}; {| dvl_altitude := -1 |};
              {| dvl_altitude := -1 |} ] posed_node
  = with_current_altitude 7 posed_node.
Proof.
  apply (dvl_keeps_last_valid_altitude posed_node
           [ {| dvl_altitude := 3 |}; {| dvl_altitude := -1 |} ]
           [ {| dvl_altitude := -1 |}; {| dvl_altitude := -1 |} ]
           {| dvl_altitude := 7 |}).
  - simpl. lra.
  - repeat constructor.
Defined.

(** ** Decoding a ping *)

Lemma from_bytes_big_step (b : list byte) (acc : Z) :
  (0 <= acc)%Z ->
  let v := fold_left (fun acc x => (acc * 256 + Z.of_N (Byte.to_N x))%Z)
                     b acc in
  (0 <= v < (acc + 1) * 256 ^ Z.of_nat (length b))%Z.
Proof.
  revert acc. induction b as [|x b IH]; intros acc Hacc; cbv zeta.
  - simpl. lia.
  - cbn [fold_left length].
    pose proof (Byte.to_N_bounded x) as Hx.
    specialize (IH (acc * 256 + Z.of_N (Byte.to_N x))%Z). cbv zeta in IH.
    rewrite Nat2Z.inj_succ, Z.pow_succ_r by lia.
    assert (H256 : (0 < 256 ^ Z.of_nat (length b))%Z)
      by (apply Z.pow_pos_nonneg; lia).
    split; [apply IH; lia|].
    eapply Z.lt_le_trans; [apply IH; lia|]. nia.
Qed.

Lemma from_bytes_big_bound (b : list byte) :
  (0 <= from_bytes_big b < 256 ^ Z.of_nat (length b))%Z.
Proof.
  pose proof (from_bytes_big_step b 0 (Z.le_refl 0)) as H. cbv zeta in H.
  unfold from_bytes_big. lia.
Qed.

Lemma decode_decoded raw : Forall2 decoded_from raw (decode raw).
Proof.
  induction raw as [|b raw IH]; simpl; constructor; [|exact IH].
  exists (from_bytes_big b). split; [reflexivity|apply from_bytes_big_bound].
Qed.

(** X8. What a ping leaves in the swath object.  On a node that has seen a
    pose, each channel holds one sample per received bytes object, in
    order; each sample is a number, never the missing-value marker: a
    non-negative integer below 256 to the number of bytes.  The pose and
    altitude stored with them are the node's current ones. *)
Theorem sonar_sub_decodes (n : Node) (sonar_msg : Sonar) (s : swath_structure) :
  state_initialized n = true ->
  deref n (current_swath n) = Some s ->
  exists s',
    deref (snd (sonar_sub sonar_msg n)) (current_swath n) = Some s' /\
    Forall2 decoded_from (data_zero sonar_msg) (swath_right s') /\
    Forall2 decoded_from (data_one sonar_msg) (swath_left s') /\
    state s' = current_state n /\
    altitude s' = current_altitude n.
Proof.
  intros Hi Hs. exists (ping_swath sonar_msg n).
  split.
  - rewrite sonar_sub_cases, Hi, Hs. cbn [negb snd].
    unfold deref in *. cbn [heap with_unprocessed with_heap].
    apply nth_error_heap_store. apply nth_error_Some. congruence.
  - repeat split; apply decode_decoded.
Qed.

(** Ping A on the node that has just seen its first pose. *)
Lemma sonar_sub_decodes_witness :
  exists s',
    deref (snd (sonar_sub ping_A posed_node)) 0%nat = Some s' /\
    Forall2 decoded_from (data_zero ping_A) (swath_right s').
Proof.
  destruct (sonar_sub_decodes posed_node ping_A blank_swath)
    as (s' & H1 & H2 & _).
  - reflexivity.
  - reflexivity.
  - exists s'. split; assumption.
Defined.

(** ** The size of a scatter *)

Lemma length_flat_map_sum {A B} (f : A -> list B) (g : A -> nat) l :
  Forall (fun c => length (f c) = g c) l ->
  length (flat_map f l) = list_sum (map g l).
Proof.
  induction 1 as [|c l Hc _ IH]; simpl; [reflexivity|].
  rewrite length_app. congruence.
Qed.

Lemma list_sum_double {A} (g : A -> nat) l :
  list_sum (map (fun c => (2 * g c)%nat) l) = (2 * list_sum (map g l))%nat.
Proof.
  unfold list_sum. induction l as [|c l IH]; [reflexivity|].
  cbn [map fold_right]. rewrite IH. lia.
Qed.

(** X9. A scatter has two points for every column of every buffered array:
    nothing is lost when the three sequences are put side by side, in the
    raw table or in the interpolation. *)
Theorem scatter_has_two_points_per_column (buffer : list coordinate_array) :
  Forall well_shaped buffer ->
  length (scatter_points buffer) = (2 * list_sum (map columns buffer))%nat /\
  scatter_size buffer = (2 * list_sum (map columns buffer))%nat.
Proof.
  intros Hwf. unfold scatter_points, scatter_size.
  rewrite scatter_flat_map. cbn [fst].
  assert (H : forall (r1 r2 : coordinate_array -> list R),
             Forall (fun c => length (r1 c) = columns c /\
                              length (r2 c) = columns c) buffer ->
             length (flat_map (fun c => r1 c ++ r2 c) buffer)
             = (2 * list_sum (map columns buffer))%nat).
  { intros r1 r2 Hr.
    rewrite (length_flat_map_sum _ (fun c => (2 * columns c)%nat)).
    - apply list_sum_double.
    - eapply Forall_impl; [|exact Hr].
      intros c [H1 H2]. rewrite length_app. lia. }
  assert (Hu : length (flat_map (fun c => row0 c ++ row1 c) buffer)
               = (2 * list_sum (map columns buffer))%nat).
  { apply H. eapply Forall_impl; [|exact Hwf].
    intros c (N & H0 & H1 & _). unfold columns. split; congruence. }
  assert (Hv : length (flat_map (fun c => row2 c ++ row3 c) buffer)
               = (2 * list_sum (map columns buffer))%nat).
  { apply H. eapply Forall_impl; [|exact Hwf].
    intros c (N & H0 & _ & H2 & H3 & _). unfold columns. split; congruence. }
  assert (Hi : length (flat_map (fun c => row5 c ++ row4 c) buffer)
               = (2 * list_sum (map columns buffer))%nat).
  { rewrite (length_flat_map_sum _ (fun c => (2 * columns c)%nat)).
    - apply list_sum_double.
    - eapply Forall_impl; [|exact Hwf].
      intros c (N & H0 & _ & _ & _ & H4 & H5). unfold columns.
      rewrite length_app. lia. }
  split; [|exact Hu].
  rewrite !length_combine, Hu, Hv, Hi. lia.
Qed.

(** 100 arrays of one column give 200 points. *)
Lemma scatter_has_two_points_per_column_witness :
  length (scatter_points (repeat one_sample_array 100)) = 200%nat.
Proof.
  assert (H : Forall well_shaped (repeat one_sample_array 100)).
  { apply Forall_forall. intros c Hc. apply repeat_spec in Hc. subst c.
    apply one_sample_array_shape. }
  exact (proj1 (scatter_has_two_points_per_column _ H)).
Defined.

(** ** The blind zone index *)

Lemma Zfloor_negative (x : R) : (x < 0)%R -> (Zfloor x < 0)%Z.
Proof.
  intros H. apply lt_IZR. destruct (Zfloor_bound x) as [Hb _]. lra.
Qed.

(** X10. With the beam pointing down ([sin (theta + alpha/2)] positive) and a
    positive range resolution the boundary index is defined for every
    altitude, does not decrease when the altitude grows, is 0 at altitude
    0 (the value the node starts with), is non-negative for a
    non-negative altitude and negative for a negative one. *)
Theorem index_FBR_grows_with_altitude (n : Node) (a b : R) :
  (0 < sin (theta (ssd n) + alpha (ssd n) / 2))%R ->
  (0 < res (ssd n))%R ->
  (a <= b)%R ->
  exists ia ib,
    index_FBR (with_current_altitude a n) = Ok ia /\
    index_FBR (with_current_altitude b n) = Ok ib /\
    (ia <= ib)%Z /\
    (a = 0%R -> ia = 0%Z) /\
    ((0 <= a)%R -> (0 <= ia)%Z) /\
    ((a < 0)%R -> (ia < 0)%Z).
Proof.
  intros Hs Hr Hab.
  set (s := sin (theta (ssd n) + alpha (ssd n) / 2)) in *.
  set (r := res (ssd n)) in *.
  assert (Hpos : (0 < / s / r)%R).
  { apply Rmult_lt_0_compat; now apply Rinv_0_lt_compat. }
  assert (Hdiv : forall x, (x / s / r = x * (/ s / r))%R)
    by (intros x; field; split; lra).
  exists (Zfloor (a / s / r)), (Zfloor (b / s / r)).
  split; [apply index_FBR_defined; simpl; fold s r; lra|].
  split; [apply index_FBR_defined; simpl; fold s r; lra|].
  split; [|split; [|split]].
  - apply Zfloor_le. rewrite !Hdiv. nra.
  - intros ->. rewrite Hdiv, Rmult_0_l. apply (ZfloorZ 0).
  - intros Ha. apply Zfloor_nonneg. rewrite Hdiv. nra.
  - intros Ha. apply Zfloor_negative. rewrite Hdiv. nra.
Qed.

(** Altitudes 1 and 2 under the 60 degree geometry. *)
Lemma index_FBR_grows_with_altitude_witness :
  exists ia ib,
    index_FBR (with_current_altitude 1 posed_node) = Ok ia /\
    index_FBR (with_current_altitude 2 posed_node) = Ok ib /\
    (ia <= ib)%Z.
Proof.
  destruct (index_FBR_grows_with_altitude posed_node 1 2)
    as (ia & ib & H1 & H2 & H3 & _).
  - change (ssd posed_node) with geometry60. rewrite sin_geometry60. lra.
  - simpl. lra.
  - lra.
  - exists ia, ib. auto.
Defined.

(** X11. Outside the channel.  With a boundary index past the end, a list
    channel comes back as that many markers and nothing else; with a
    negative index it comes back without markers and without its leading
    samples, only the last [-index] of them being kept.  A numpy array
    never changes its length: it raises in those cases, unless the slice
    and the markers both are empty or the index is 1. *)
Theorem blind_zone_removal_outside
        (self : Node) (swath : list pyfloat) (index : Z) :
  index_FBR self = Ok index ->
  let len := Z.of_nat (length swath) in
  ((len <= index)%Z ->
   blind_zone_removal self PyList swath = Ok (repeat NaN (Z.to_nat index))) /\
  ((index < 0)%Z ->
   blind_zone_removal self PyList swath
   = Ok (skipn (Z.to_nat (len + index)) swath)) /\
  ((len < index)%Z -> (1 < index)%Z ->
   blind_zone_removal self NdArray swath = Raise ValueError) /\
  ((index < 0)%Z -> (- index < len)%Z ->
   blind_zone_removal self NdArray swath = Raise ValueError) /\
  (forall out, blind_zone_removal self NdArray swath = Ok out ->
               length out = length swath).
Proof.
  intros Hi len.
  rewrite !(blind_zone_removal_unfold _ _ _ _ Hi).
  refine (conj _ (conj _ (conj _ (conj _ _)))).
  - intros H. now rewrite py_assign_prefix_beyond.
  - intros H. now rewrite py_assign_prefix_negative.
  - intros H H1. unfold np_assign_prefix, py_list_mul, slice_stop.
    replace (index <? 0)%Z with false by (symmetry; apply Z.ltb_ge; lia).
    rewrite Z.min_r by (fold len; lia). rewrite Nat2Z.id.
    destruct (repeat NaN (Z.to_nat index)) as [|x [|y l]] eqn:E;
      apply (f_equal (@length _)) in E; rewrite repeat_length in E;
      simpl in E; try lia.
    replace (length (x :: y :: l) =? length swath)%nat with false;
      [reflexivity|].
    symmetry. apply Nat.eqb_neq. simpl. lia.
  - intros H H1. unfold np_assign_prefix, py_list_mul, slice_stop.
    replace (index <? 0)%Z with true by (symmetry; apply Z.ltb_lt; lia).
    replace (Z.to_nat index) with 0%nat by lia. cbn [repeat length].
    replace (0 =? _)%nat with false; [reflexivity|].
    symmetry. apply Nat.eqb_neq. fold len. lia.
  - intros out H. now apply np_assign_prefix_twice in H.
Qed.

(** An altitude of 2 under the 60 degree geometry and a channel of one
    sample. *)
Lemma blind_zone_removal_outside_witness :
  blind_zone_removal (with_current_altitude 2 posed_node) PyList [Fin 7]
  = Ok [NaN; NaN; NaN; NaN].
Proof.
  assert (Hi : index_FBR (with_current_altitude 2 posed_node) = Ok 4%Z)
    by (apply index_FBR_geometry60; solve_geometry60).
  apply (proj1 (blind_zone_removal_outside _ [Fin 7] 4%Z Hi)).
  simpl. lia.
Defined.

(** ** Slant range correction *)

Lemma slant_sample_bins rnd res altitude right left N s :
  res <> 0%R ->
  slant_sample rnd res altitude right left N s =
  (let w1 := rnd (computed_bin rnd res altitude s
                  - IZR (floor_bin rnd res altitude N s))%R in
   let w2 := rnd (1 - w1)%R in
   rf <- py_index right (floor_bin rnd res altitude N s) ;;
   rc <- py_index right (ceiling_bin rnd res altitude N s) ;;
   lf <- py_index left (floor_bin rnd res altitude N s) ;;
   lc <- py_index left (ceiling_bin rnd res altitude N s) ;;
   Ok (plus rnd (scale rnd w2 rf) (scale rnd w1 rc),
       plus rnd (scale rnd w2 lf) (scale rnd w1 lc)))%result.
Proof.
  intros H. unfold slant_sample.
  destruct (Req_dec_T res 0); [contradiction|reflexivity].
Qed.

Lemma exact_bin_at_least res altitude s :
  (0 < res)%R -> (INR s <= exact_bin res altitude s)%R.
Proof.
  intros Hres. unfold exact_bin.
  assert (H0 : (0 <= res * INR s)%R)
    by (apply Rmult_le_pos; [lra|apply pos_INR]).
  assert (H : (res * INR s <= sqrt ((res * INR s) ^ 2 + altitude ^ 2))%R).
  { rewrite <- (sqrt_Rsqr (res * INR s)) at 1 by assumption.
    apply sqrt_le_1_alt. unfold Rsqr. nra. }
  apply (Rmult_le_reg_r res); [assumption|].
  unfold Rdiv. rewrite Rmult_assoc, Rinv_l, Rmult_1_r by lra. lra.
Qed.


(** A computed bin within 1 of the exact one lies above s - 1. *)
Lemma computed_bin_close rnd res altitude s :
  (0 < res)%R ->
  (Rabs (computed_bin rnd res altitude s - exact_bin res altitude s) < 1)%R ->
  (IZR (Z.of_nat s) - 1 < computed_bin rnd res altitude s)%R.
Proof.
  intros Hres Hclose.
  pose proof (exact_bin_at_least res altitude s Hres) as Hs.
  rewrite INR_IZR_INZ in Hs.
  apply Rabs_def2 in Hclose. lra.
Qed.

Lemma Zceil_above (z : Z) (x : R) : (IZR z - 1 < x)%R -> (z <= Zceil x)%Z.
Proof.
  intros H. destruct (Zceil_bound x) as [_ Hc].
  assert (Hlt : (IZR (z - 1) < IZR (Zceil x))%R)
    by (rewrite minus_IZR; lra).
  apply lt_IZR in Hlt. lia.
Qed.




Lemma py_index_raises {A} (l : list A) (i : Z) (e : exn) :
  py_index l i = Raise e -> e = IndexError.
Proof.
  unfold py_index. destruct (_ && _)%bool; [|now intros [= <-]].
  destruct (nth_error _ _); [discriminate|now intros [= <-]].
Qed.

Lemma py_index_past_the_end {A} (l : list A) (i : Z) :
  (Z.of_nat (length l) <= i)%Z -> py_index l i = Raise IndexError.
Proof.
  intros H. unfold py_index.
  replace (i <? 0)%Z with false by (symmetry; apply Z.ltb_ge; lia).
  replace (i <? Z.of_nat (length l))%Z with false
    by (symmetry; apply Z.ltb_ge; lia).
  now rewrite andb_false_r.
Qed.

Lemma slant_sample_raises rnd res altitude right left N s e :
  res <> 0%R ->
  slant_sample rnd res altitude right left N s = Raise e -> e = IndexError.
Proof.
  intros Hres. rewrite slant_sample_bins by assumption. cbv zeta.
  destruct (py_index right (floor_bin rnd res altitude N s)) eqn:E1;
    [|intros [= <-]; eapply py_index_raises; eassumption].
  destruct (py_index right (ceiling_bin rnd res altitude N s)) eqn:E2;
    [|intros [= <-]; eapply py_index_raises; eassumption].
  destruct (py_index left (floor_bin rnd res altitude N s)) eqn:E3;
    [|intros [= <-]; eapply py_index_raises; eassumption].
  destruct (py_index left (ceiling_bin rnd res altitude N s)) eqn:E4;
    [discriminate|intros [= <-]; eapply py_index_raises; eassumption].
Qed.

(** A sample whose upper bin lies past the end of the left channel
    raises. *)
Lemma slant_sample_left_short rnd res altitude right left N s :
  res <> 0%R ->
  (Z.of_nat (length left) <= ceiling_bin rnd res altitude N s)%Z ->
  exists e, slant_sample rnd res altitude right left N s = Raise e.
Proof.
  intros Hres Hc. rewrite slant_sample_bins by assumption. cbv zeta.
  destruct (py_index right (floor_bin rnd res altitude N s));
    [|simpl; eauto].
  destruct (py_index right (ceiling_bin rnd res altitude N s));
    [|simpl; eauto].
  destruct (py_index left (floor_bin rnd res altitude N s));
    [|simpl; eauto].
  rewrite (py_index_past_the_end left) by assumption. simpl. eauto.
Qed.

Lemma slant_loop_raises body range (x : exn) :
  (forall s e, In s range -> body s = Raise e -> e = x) ->
  (exists s e, In s range /\ body s = Raise e) ->
  slant_loop body range = Raise x.
Proof.
  induction range as [|s0 range IH]; intros Hall (s & e & Hin & Hs).
  - destruct Hin.
  - simpl. destruct (body s0) as [p|e0] eqn:E0; simpl.
    + destruct Hin as [<- | Hin]; [congruence|].
      rewrite IH; [reflexivity| |eauto].
      intros s' e' Hin' H'. apply (Hall s' e'); [now right|assumption].
    + f_equal. apply (Hall s0 e0); [now left|assumption].
Qed.

(** The upper bin of the last sample is the last bin when its computed bin
    is within 1 of the exact one. *)
Lemma last_sample_bin rnd res altitude N :
  (0 < res)%R -> (0 < N)%nat ->
  (Rabs (computed_bin rnd res altitude (N - 1)
         - exact_bin res altitude (N - 1)) < 1)%R ->
  ceiling_bin rnd res altitude N (N - 1) = (Z.of_nat N - 1)%Z.
Proof.
  intros Hres HN Hclose. unfold ceiling_bin.
  pose proof (computed_bin_close rnd res altitude (N - 1) Hres Hclose) as Hc.
  pose proof (Zceil_above _ _ Hc). lia.
Qed.

(** X14. When the correction cannot be done.  Without right-hand samples it
    returns two empty channels, whatever else the swath holds.  With
    samples and a zero resolution it raises on the first of them.  With a
    positive resolution and fewer left-hand than right-hand samples it
    raises [IndexError], since the last sample reads the last right-hand
    bin from both channels; this needs the computed bin of the last sample
    to be within 1 of the exact one, as it is without rounding error.
    Whenever it returns, both channels have as many samples as the
    right-hand one had. *)
Theorem slant_range_correction_faults
        (rnd : R -> R) (self : Node) (sw : swath_structure) :
  (swath_right sw = [] -> slant_range_correction rnd self sw = Ok ([], [])) /\
  (swath_right sw <> [] -> res (ssd self) = 0%R ->
   slant_range_correction rnd self sw = Raise NonFinite) /\
  ((0 < res (ssd self))%R ->
   (length (swath_left sw) < length (swath_right sw))%nat ->
   (Rabs (computed_bin rnd (res (ssd self)) (altitude sw)
                       (length (swath_right sw) - 1)
          - exact_bin (res (ssd self)) (altitude sw)
                      (length (swath_right sw) - 1)) < 1)%R ->
   slant_range_correction rnd self sw = Raise IndexError) /\
  ((0 < res (ssd self))%R ->
   (length (swath_left sw) < length (swath_right sw))%nat ->
   slant_range_correction no_rounding self sw = Raise IndexError) /\
  (forall c, slant_range_correction rnd self sw = Ok c ->
             length (fst c) = length (swath_right sw) /\
             length (snd c) = length (swath_right sw)).
Proof.
  assert (Hshort : forall r : R -> R,
             (0 < res (ssd self))%R ->
             (length (swath_left sw) < length (swath_right sw))%nat ->
             (Rabs (computed_bin r (res (ssd self)) (altitude sw)
                                 (length (swath_right sw) - 1)
                    - exact_bin (res (ssd self)) (altitude sw)
                                (length (swath_right sw) - 1)) < 1)%R ->
             slant_range_correction r self sw = Raise IndexError).
  { intros r Hres Hlen Hclose. unfold slant_range_correction.
    set (N := length (swath_right sw)) in *.
    apply slant_loop_raises.
    - intros s e _ H. eapply slant_sample_raises; [|exact H]. lra.
    - destruct (slant_sample_left_short r (res (ssd self)) (altitude sw)
                  (swath_right sw) (swath_left sw) N (N - 1)) as [e He].
      + lra.
      + rewrite last_sample_bin by (assumption || lia). lia.
      + exists (N - 1)%nat, e. split; [apply in_seq; lia|exact He]. }
  refine (conj _ (conj _ (conj _ (conj _ _)))).
  - apply slant_range_correction_nil.
  - intros Hne H0. unfold slant_range_correction.
    destruct (swath_right sw) as [|x r]; [contradiction|].
    simpl. unfold slant_sample.
    destruct (Req_dec_T (res (ssd self)) 0); [reflexivity|contradiction].
  - apply Hshort.
  - intros Hres Hlen. apply Hshort; [assumption|assumption|].
    unfold computed_bin, no_rounding, exact_bin.
    rewrite Rminus_diag, Rabs_R0. lra.
  - apply slant_range_correction_lengths.
Qed.

(** ** Pitch and yaw *)

(** Settles the comparisons of reals a goal branches on. *)
Ltac plain_real a :=
  lazymatch a with
  | context [if _ then _ else _] => fail
  | _ => idtac
  end.

Ltac decide_reals :=
  repeat match goal with
         | |- context [Rlt_dec ?a ?b] =>
             plain_real a; plain_real b; destruct (Rlt_dec a b); try lra
         | |- context [Rle_dec ?a ?b] =>
             plain_real a; plain_real b; destruct (Rle_dec a b); try lra
         end.

Lemma atan2_positive y x : (0 < x)%R -> atan2 y x = atan (y / x).
Proof. intros H. unfold atan2. destruct (Rlt_dec 0 x); [reflexivity|lra]. Qed.

Lemma atan2_negative_upper y x :
  (x < 0)%R -> (0 <= y)%R -> atan2 y x = (atan (y / x) + PI)%R.
Proof.
  intros Hx Hy. unfold atan2.
  destruct (Rlt_dec 0 x); [lra|]. destruct (Rlt_dec x 0); [|lra].
  destruct (Rle_dec 0 y); [reflexivity|lra].
Qed.

Lemma atan2_negative_lower y x :
  (x < 0)%R -> (y < 0)%R -> atan2 y x = (atan (y / x) - PI)%R.
Proof.
  intros Hx Hy. unfold atan2.
  destruct (Rlt_dec 0 x); [lra|]. destruct (Rlt_dec x 0); [|lra].
  destruct (Rle_dec 0 y); [lra|reflexivity].
Qed.

Lemma atan2_vertical y :
  atan2 y 0 = (if Rlt_dec 0 y then PI / 2
               else if Rlt_dec y 0 then - (PI / 2) else 0)%R.
Proof.
  unfold atan2. destruct (Rlt_dec 0 0); [lra|reflexivity].
Qed.

(** [atan2] undoes [sin] and [cos] on (-pi, pi]. *)
Lemma atan2_sin_cos psi :
  (- PI < psi <= PI)%R -> atan2 (sin psi) (cos psi) = psi.
Proof.
  intros [Hlo Hhi]. pose proof PI_RGT_0 as Hpi.
  destruct (Rlt_dec psi (- (PI / 2))) as [H1|H1].
  { (* third quadrant *)
    assert (Hs : (sin psi < 0)%R) by (apply sin_lt_0_var; lra).
    assert (Hc : (cos psi < 0)%R).
    { rewrite <- cos_neg. apply cos_lt_0; lra. }
    rewrite atan2_negative_lower by assumption.
    assert (Hx : (- (PI / 2) < psi + PI < PI / 2)%R) by lra.
    assert (Ht : (sin psi / cos psi = tan (psi + PI))%R).
    { unfold tan. rewrite neg_sin, neg_cos. field. lra. }
    rewrite Ht, atan_tan by assumption. lra. }
  destruct (Req_dec_T psi (- (PI / 2))) as [H2|H2].
  { subst psi. rewrite cos_neg, cos_PI2, sin_neg, sin_PI2, atan2_vertical.
    decide_reals; try reflexivity. }
  destruct (Rlt_dec psi (PI / 2)) as [H3|H3].
  { assert (Hc : (0 < cos psi)%R) by (apply cos_gt_0; lra).
    rewrite atan2_positive by assumption.
    change (sin psi / cos psi)%R with (tan psi).
    apply atan_tan. lra. }
  destruct (Req_dec_T psi (PI / 2)) as [H4|H4].
  { subst psi. rewrite cos_PI2, sin_PI2, atan2_vertical.
    decide_reals; try reflexivity. }
  (* second quadrant *)
  assert (Hs : (0 <= sin psi)%R) by (apply sin_ge_0; lra).
  assert (Hc : (cos psi < 0)%R) by (apply cos_lt_0; lra).
  rewrite atan2_negative_upper by assumption.
  assert (Hx : (- (PI / 2) < psi - PI < PI / 2)%R) by lra.
  assert (Ht : (sin psi / cos psi = tan (psi - PI))%R).
  { unfold tan.
    replace psi with ((psi - PI) + PI)%R at 1 2 by ring.
    rewrite neg_sin, neg_cos. field.
    intros E. replace psi with ((psi - PI) + PI)%R in Hc by ring.
    rewrite neg_cos in Hc. lra. }
  rewrite Ht, atan_tan by assumption. lra.
Qed.

Lemma double_half_sin a : (2 * (cos (a / 2) * sin (a / 2)) = sin a)%R.
Proof.
  replace a with (2 * (a / 2))%R at 3 by field. rewrite sin_2a. ring.
Qed.

Lemma double_half_cos a :
  (1 - 2 * (sin (a / 2) * sin (a / 2)) = cos a)%R.
Proof.
  replace a with (2 * (a / 2))%R at 3 by field. rewrite cos_2a_sin. ring.
Qed.

(** X15. A turn about the vertical axis comes back as that turn.  The
    quaternion of a vehicle that is level and turned by [psi], with
    [psi] in (-pi, pi], gives pitch 0 and yaw [psi]. *)
Theorem yaw_round_trip (psi : R) :
  (- PI < psi <= PI)%R ->
  pitch_yaw_from_quaternion (cos (psi / 2)) 0 0 (sin (psi / 2)) = (0%R, psi).
Proof.
  intros Hpsi. unfold pitch_yaw_from_quaternion. cbv zeta.
  replace (2 * (cos (psi / 2) * 0 - sin (psi / 2) * 0))%R with 0%R by ring.
  decide_reals; [idtac]. rewrite asin_0. f_equal.
  replace (2 * (cos (psi / 2) * sin (psi / 2) + 0 * 0))%R with (sin psi)
    by (rewrite <- double_half_sin; ring).
  replace (1 - 2 * (0 * 0 + sin (psi / 2) * sin (psi / 2)))%R with (cos psi)
    by (rewrite <- double_half_cos; ring).
  now apply atan2_sin_cos.
Qed.

(** A quarter turn to the left. *)
Lemma yaw_round_trip_witness :
  pitch_yaw_from_quaternion (cos (PI / 2 / 2)) 0 0 (sin (PI / 2 / 2))
  = (0%R, (PI / 2)%R).
Proof.
  apply (yaw_round_trip (PI / 2)). pose proof PI_RGT_0. lra.
Defined.

(** X16. A pitch comes back as that pitch.  The quaternion of a vehicle
    pitched by [theta_p], with [theta_p] in [-pi/2, pi/2], gives that pitch
    and yaw 0; the clamp is not used. *)
Theorem pitch_round_trip (theta_p : R) :
  (- (PI / 2) <= theta_p <= PI / 2)%R ->
  pitch_yaw_from_quaternion (cos (theta_p / 2)) 0 (sin (theta_p / 2)) 0
  = (theta_p, 0%R).
Proof.
  intros Hth. unfold pitch_yaw_from_quaternion. cbv zeta.
  replace (2 * (cos (theta_p / 2) * sin (theta_p / 2) - 0 * 0))%R
    with (sin theta_p) by (rewrite <- double_half_sin; ring).
  pose proof (SIN_bound theta_p) as [Hlo Hhi].
  decide_reals; [idtac]. rewrite asin_sin by assumption. f_equal.
  replace (2 * (cos (theta_p / 2) * 0 + 0 * sin (theta_p / 2)))%R
    with 0%R by ring.
  replace (1 - 2 * (sin (theta_p / 2) * sin (theta_p / 2) + 0 * 0))%R
    with (cos theta_p) by (rewrite <- double_half_cos; ring).
  assert (Hc : (0 <= cos theta_p)%R) by (apply cos_ge_0; lra).
  destruct Hc as [Hc | Hc].
  - rewrite atan2_positive by assumption.
    unfold Rdiv. rewrite Rmult_0_l. apply atan_0.
  - rewrite <- Hc, atan2_vertical. decide_reals; try reflexivity.
Qed.

(** Nose up by a sixth of a turn. *)
Lemma pitch_round_trip_witness :
  pitch_yaw_from_quaternion (cos (PI / 3 / 2)) 0 (sin (PI / 3 / 2)) 0
  = ((PI / 3)%R, 0%R).
Proof.
  apply (pitch_round_trip (PI / 3)). pose proof PI_RGT_0. lra.
Defined.

Lemma atan2_range y x : (- PI < atan2 y x <= PI)%R.
Proof.
  pose proof PI_RGT_0 as Hpi. pose proof (atan_bound (y / x)) as Hb.
  unfold atan2.
  destruct (Rlt_dec 0 x) as [Hx|Hx]; [lra|].
  destruct (Rlt_dec x 0) as [Hx'|Hx']; [|decide_reals].
  assert (Hinv : (/ x < 0)%R) by now apply Rinv_lt_0_compat.
  destruct (Rle_dec 0 y) as [Hy|Hy].
  - assert (H : (y / x <= 0)%R) by (unfold Rdiv; nra).
    assert (atan (y / x) <= 0)%R.
    { rewrite <- atan_0. destruct H as [H|H].
      - left. now apply atan_increasing.
      - rewrite H. lra. }
    lra.
  - assert (H : (0 < y / x)%R) by (unfold Rdiv; nra).
    assert (0 < atan (y / x))%R
      by (rewrite <- atan_0; now apply atan_increasing).
    lra.
Qed.

(** X17. The angles are always in range.  For every quaternion, normalised or
    not, the argument handed to [asin] lies in [-1, 1] (so the call cannot
    fail), the pitch lies in [-pi/2, pi/2] and the yaw in (-pi, pi]. *)
Theorem pitch_yaw_in_range (w x y z : R) :
  let t2 := (2 * (w * y - z * x))%R in
  let clamped := Rmax (-1) (Rmin 1 t2) in
  (-1 <= clamped <= 1)%R /\
  fst (pitch_yaw_from_quaternion w x y z) = asin clamped /\
  (- (PI / 2) <= fst (pitch_yaw_from_quaternion w x y z) <= PI / 2)%R /\
  (- PI < snd (pitch_yaw_from_quaternion w x y z) <= PI)%R.
Proof.
  cbv zeta. set (t2 := (2 * (w * y - z * x))%R).
  assert (Hc : (-1 <= Rmax (-1) (Rmin 1 t2) <= 1)%R).
  { unfold Rmax, Rmin. repeat destruct (Rle_dec _ _); lra. }
  assert (Hp : fst (pitch_yaw_from_quaternion w x y z)
               = asin (Rmax (-1) (Rmin 1 t2))).
  { unfold pitch_yaw_from_quaternion. cbv zeta. fold t2. cbn [fst]. f_equal.
    unfold Rmax, Rmin.
    destruct (Rlt_dec 1 t2); repeat destruct (Rle_dec _ _);
      decide_reals; lra. }
  split; [exact Hc|]. split; [exact Hp|]. split.
  - rewrite Hp. apply asin_bound.
  - unfold pitch_yaw_from_quaternion. cbn [snd]. apply atan2_range.
Qed.

(** ** Pose correction *)

Lemma nth_map_seq (f : nat -> R) (N k : nat) (d : R) :
  (k < N)%nat -> nth k (map f (seq 0 N)) d = f k.
Proof.
  intros Hk. rewrite (nth_indep _ d (f 0%nat))
    by now rewrite length_map, length_seq.
  now rewrite map_nth, seq_nth.
Qed.

(** X18. When the array can be built.  [pose_correction] returns exactly when
    the two channels have one length, and raises [ValueError] otherwise;
    the array it returns has as many columns as there are samples, and its
    last two rows are the two channels as they were, markers included. *)
Theorem pose_correction_result (self : Node) (s : swath_structure) :
  (length (swath_left s) = length (swath_right s) ->
   exists c, pose_correction self s = Ok c /\
             shape6 (length (swath_right s)) c /\
             row4 c = swath_right s /\ row5 c = swath_left s) /\
  (length (swath_left s) <> length (swath_right s) ->
   pose_correction self s = Raise ValueError).
Proof.
  split.
  - intros E. destruct (pose_correction_defined self s E) as [c Hc].
    exists c. split; [exact Hc|]. now apply pose_correction_shape in Hc.
  - intros E. unfold pose_correction.
    destruct (pitch_yaw_from_quaternion _ _ _ _) as [theta_p psi].
    apply Nat.eqb_neq in E. now rewrite E.
Qed.

(** X19. The two sides mirror each other.  In the array of a swath the first
    right-hand and the first left-hand point coincide (the point below the
    vehicle); sample k of either side lies at distance [|k * res'|] from
    it, with [res' = (tan(theta + alpha/2) - tan(theta - alpha/2)) *
    altitude / nSamples] and [nSamples] other than 0, and the two samples k
    lie opposite each other about it. *)
Theorem pose_correction_mirror
        (self : Node) (s : swath_structure) (c : coordinate_array) (k : nat) :
  pose_correction self s = Ok c ->
  nSamples (ssd self) <> 0%R ->
  (k < length (swath_right s))%nat ->
  let res' := ((tan (theta (ssd self) + alpha (ssd self) / 2)
                - tan (theta (ssd self) - alpha (ssd self) / 2))
               * altitude s / nSamples (ssd self))%R in
  let x_right := nth k (row0 c) 0%R in
  let x_left := nth k (row1 c) 0%R in
  let y_right := nth k (row2 c) 0%R in
  let y_left := nth k (row3 c) 0%R in
  let x0 := nth 0 (row0 c) 0%R in
  let y0 := nth 0 (row2 c) 0%R in
  nth 0 (row1 c) 0%R = x0 /\
  nth 0 (row3 c) 0%R = y0 /\
  (x_right + x_left = 2 * x0)%R /\
  (y_right + y_left = 2 * y0)%R /\
  ((x_right - x0) ^ 2 + (y_right - y0) ^ 2 = (INR k * res') ^ 2)%R /\
  ((x_left - x0) ^ 2 + (y_left - y0) ^ 2 = (INR k * res') ^ 2)%R.
Proof.
  intros Hc _ Hk. cbv zeta. unfold pose_correction in Hc.
  destruct (pitch_yaw_from_quaternion _ _ _ _) as [theta_p psi].
  destruct (negb _); [discriminate|]. injection Hc as <-.
  cbn [row0 row1 row2 row3].
  assert (H0 : (0 < length (swath_right s))%nat) by lia.
  rewrite !nth_map_seq by assumption. simpl INR.
  pose proof (sin2_cos2 psi) as Hsc. unfold Rsqr in Hsc.
  set (r := ((tan (theta (ssd self) + alpha (ssd self) / 2)
              - tan (theta (ssd self) - alpha (ssd self) / 2))
             * altitude s / nSamples (ssd self))%R).
  set (K := INR k).
  repeat split; try ring.
  - replace ((- (position_x (state s) + sin psi * K * r
                 + sin theta_p * cos psi * altitude s)
              - - (position_x (state s) + sin psi * 0 * r
                   + sin theta_p * cos psi * altitude s)) ^ 2
             + (- position_y (state s) + cos psi * K * r
                - sin theta_p * sin psi * altitude s
                - (- position_y (state s) + cos psi * 0 * r
                   - sin theta_p * sin psi * altitude s)) ^ 2)%R
      with ((K * r) ^ 2 * (sin psi * sin psi + cos psi * cos psi))%R by ring.
    rewrite Hsc. ring.
  - replace ((- (position_x (state s) - sin psi * K * r
                 + sin theta_p * cos psi * altitude s)
              - - (position_x (state s) + sin psi * 0 * r
                   + sin theta_p * cos psi * altitude s)) ^ 2
             + (- position_y (state s) - cos psi * K * r
                - sin theta_p * sin psi * altitude s
                - (- position_y (state s) + cos psi * 0 * r
                   - sin theta_p * sin psi * altitude s)) ^ 2)%R
      with ((K * r) ^ 2 * (sin psi * sin psi + cos psi * cos psi))%R by ring.
    rewrite Hsc. ring.
Qed.

(** Ping 5 as queued on the node that has just seen its first pose. *)
Lemma pose_correction_mirror_witness :
  exists c,
    pose_correction posed_node (ping_swath ping_5 posed_node) = Ok c /\
    nth 0 (row1 c) 0%R = nth 0 (row0 c) 0%R.
Proof.
  destruct (pose_correction_defined posed_node
              (ping_swath ping_5 posed_node) eq_refl) as [c Hc].
  exists c. split; [exact Hc|].
  apply (pose_correction_mirror posed_node _ c 2 Hc); simpl; [lra|lia].
Defined.

Lemma level_turn_angles psi :
  (- PI < psi <= PI)%R ->
  pitch_yaw_from_quaternion (cos (psi / 2)) 0 0 (sin (psi / 2)) = (0%R, psi).
Proof.
  intros Hpsi. unfold pitch_yaw_from_quaternion. cbv zeta.
  replace (2 * (cos (psi / 2) * 0 - sin (psi / 2) * 0))%R with 0%R by ring.
  decide_reals; [idtac]. rewrite asin_0. f_equal.
  replace (2 * (cos (psi / 2) * sin (psi / 2) + 0 * 0))%R with (sin psi)
    by (rewrite <- double_half_sin; ring).
  replace (1 - 2 * (0 * 0 + sin (psi / 2) * sin (psi / 2)))%R with (cos psi)
    by (rewrite <- double_half_cos; ring).
  now apply atan2_sin_cos.
Qed.

(** X20. A level vehicle.  For a vehicle that is level and heading [psi], in
    (-pi, pi], and [nSamples] other than 0, sample k of the right-hand
    side is projected to
    [(-(pos_x + sin psi * k * res'), -pos_y + cos psi * k * res')] and
    sample k of the left-hand side to
    [(-(pos_x - sin psi * k * res'), -pos_y - cos psi * k * res')]: the
    altitude enters through [res'] only. *)
Theorem pose_correction_level
        (self : Node) (s : swath_structure) (psi pos_x pos_y : R) (k : nat) :
  (- PI < psi <= PI)%R ->
  state s = yaw_only psi pos_x pos_y ->
  nSamples (ssd self) <> 0%R ->
  length (swath_left s) = length (swath_right s) ->
  (k < length (swath_right s))%nat ->
  let res' := ((tan (theta (ssd self) + alpha (ssd self) / 2)
                - tan (theta (ssd self) - alpha (ssd self) / 2))
               * altitude s / nSamples (ssd self))%R in
  exists c,
    pose_correction self s = Ok c /\
    nth k (row0 c) 0%R = (- (pos_x + sin psi * INR k * res'))%R /\
    nth k (row1 c) 0%R = (- (pos_x - sin psi * INR k * res'))%R /\
    nth k (row2 c) 0%R = (- pos_y + cos psi * INR k * res')%R /\
    nth k (row3 c) 0%R = (- pos_y - cos psi * INR k * res')%R.
Proof.
  intros Hpsi Hstate _ Hlen Hk. cbv zeta.
  unfold pose_correction. rewrite Hstate. cbn [yaw_only orientation_w
    orientation_x orientation_y orientation_z position_x position_y].
  rewrite (level_turn_angles psi Hpsi).
  apply Nat.eqb_eq in Hlen. rewrite Hlen. cbn [negb].
  eexists. split; [reflexivity|]. cbn [row0 row1 row2 row3].
  rewrite !nth_map_seq by assumption. rewrite sin_0.
  repeat split; ring.
Qed.

(** Ping 5 on a vehicle at (10, 20), level and heading a quarter turn to
    the left. *)
Lemma pose_correction_level_witness :
  exists c,
    pose_correction posed_node
      {| swath_right := decode (data_zero ping_5);
         swath_left := decode (data_one ping_5);
         state := yaw_only (PI / 2) 10 20; altitude := 4 |} = Ok c /\
    length (row0 c) = 5%nat.
Proof.
  destruct (pose_correction_level posed_node
              {| swath_right := decode (data_zero ping_5);
                 swath_left := decode (data_one ping_5);
                 state := yaw_only (PI / 2) 10 20; altitude := 4 |}
              (PI / 2) 10 20 3) as (c & Hc & _).
  - pose proof PI_RGT_0. lra.
  - reflexivity.
  - simpl. lra.
  - reflexivity.
  - simpl. lia.
  - exists c. split; [exact Hc|].
    now destruct (pose_correction_shape _ _ _ Hc) as ((H & _) & _).
Defined.

(** ** Before the first altitude reading *)

Lemma map_const_seq (f : nat -> R) (c : R) (a N : nat) :
  (forall k, f k = c) -> map f (seq a N) = repeat c N.
Proof.
  intros H. revert a. induction N as [|N IH]; intros a; [reflexivity|].
  simpl. now rewrite H, IH.
Qed.

Lemma pose_correction_collapsed (self : Node) (s : swath_structure) :
  altitude s = 0%R ->
  length (swath_left s) = length (swath_right s) ->
  pose_correction self s =
  Ok {| row0 := repeat (- position_x (state s))%R (length (swath_right s));
        row1 := repeat (- position_x (state s))%R (length (swath_right s));
        row2 := repeat (- position_y (state s))%R (length (swath_right s));
        row3 := repeat (- position_y (state s))%R (length (swath_right s));
        row4 := swath_right s;
        row5 := swath_left s |}.
Proof.
  intros Ha Hl. unfold pose_correction.
  destruct (pitch_yaw_from_quaternion _ _ _ _) as [theta_p psi].
  apply Nat.eqb_eq in Hl. rewrite Hl, Ha. cbn [negb].
  do 2 f_equal; apply map_const_seq; intros k; unfold Rdiv; ring.
Qed.

Section ZeroAltitude.

Variable rnd : R -> R.
Variable to_csv : csv_file -> Z -> result unit.
Variable swath_normalization : list pyfloat -> result (list pyfloat).
Variable normalized_kind : container.
Variable griddata :
  list R -> list R -> list pyfloat -> list R -> list R -> result raster.
Variable knn :
  R -> list R -> list R -> list pyfloat -> result (raster * raster * raster).

(** X21. A tick before the first valid altitude reading.  While the
    altitude of the node and of the queued swath is 0 and no frame is due,
    a tick on normalised channels of one length returns, for a rounding
    that keeps the sign: no sample is blanked, and every sample of the
    swath is projected to the one point (-pos_x, -pos_y), whatever the
    orientation.  The appended array carries in rows 4 and 5 the slant
    range correction of the normalised channels, sample for sample.  The
    sample count [nSamples] is taken to be other than 0. *)
Theorem tick_before_first_altitude
        (n : Node) (l : ref) (q : list ref) (s : swath_structure)
        (r1 l1 : list pyfloat) :
  sign_preserving rnd ->
  buffer_unprocessed_swaths n = l :: q ->
  frame_due (length (buffer_processed_coordinate_array n)) = false ->
  deref n l = Some s ->
  current_altitude n = 0%R ->
  altitude s = 0%R ->
  swath_normalization (swath_right s) = Ok r1 ->
  swath_normalization (swath_left s) = Ok l1 ->
  length l1 = length r1 ->
  sin (theta (ssd n) + alpha (ssd n) / 2) <> 0%R ->
  (0 < res (ssd n))%R ->
  nSamples (ssd n) <> 0%R ->
  exists n' c,
    slant_range_correction rnd n
      {| swath_right := r1; swath_left := l1;
         state := state s; altitude := altitude s |} = Ok c /\
    length (fst c) = length r1 /\
    length (snd c) = length r1 /\
    run_full_pre_processing_pipeline
      rnd to_csv swath_normalization normalized_kind griddata knn n
    = (Ok tt, n') /\
    buffer_unprocessed_swaths n' = q /\
    buffer_processed_coordinate_array n' =
    buffer_processed_coordinate_array n ++
    [{| row0 := repeat (- position_x (state s))%R (length r1);
        row1 := repeat (- position_x (state s))%R (length r1);
        row2 := repeat (- position_y (state s))%R (length r1);
        row3 := repeat (- position_y (state s))%R (length r1);
        row4 := fst c;
        row5 := snd c |}].
Proof.
  intros Hrnd Hq Hdue Hs Hcur Halt Hr1 Hl1 Hlen Hsin Hres _.
  assert (Hi : index_FBR n = Ok 0%Z).
  { rewrite index_FBR_defined by (assumption || lra).
    rewrite Hcur. unfold Rdiv. rewrite !Rmult_0_l. f_equal.
    apply (ZfloorZ 0). }
  assert (Hb : forall w, blind_zone_removal n normalized_kind w = Ok w).
  { intros w. rewrite (blind_zone_removal_prefix _ _ _ 0 Hi) by lia.
    reflexivity. }
  destruct (slant_range_correction_defined rnd n
              {| swath_right := r1; swath_left := l1;
                 state := state s; altitude := altitude s |} Hrnd)
    as [c Hc]; [exact Hlen|exact Hres|].
  destruct (slant_range_correction_lengths _ _ _ _ Hc) as [Hc1 Hc2].
  cbn [swath_right] in Hc1, Hc2.
  exists (with_unprocessed q
            (with_processed
               (buffer_processed_coordinate_array n ++
                [{| row0 := repeat (- position_x (state s))%R (length r1);
                    row1 := repeat (- position_x (state s))%R (length r1);
                    row2 := repeat (- position_y (state s))%R (length r1);
                    row3 := repeat (- position_y (state s))%R (length r1);
                    row4 := fst c;
                    row5 := snd c |}])
               (with_heap (heap_store (heap n) l (corrected s c)) n))), c.
  split; [exact Hc|]. split; [exact Hc1|]. split; [exact Hc2|].
  split; [|split; reflexivity].
  rewrite tick_cases, Hq, Hdue. cbn [length Nat.eqb].
  rewrite process_step_chain, Hq, Hs, Hr1, Hl1. cbv zeta.
  rewrite !Hb.
  unfold set_swath_left, set_swath_right.
  cbn [swath_right swath_left state altitude].
  rewrite Hc.
  rewrite pose_correction_collapsed
    by (cbn [corrected altitude swath_left swath_right]; congruence).
  cbn [corrected state swath_right swath_left]. rewrite Hc1.
  reflexivity.
Qed.

End ZeroAltitude.

(** Ping 5 on the node that has seen a pose and no altitude reading,
    without rounding error. *)
Lemma tick_before_first_altitude_witness :
  exists n',
    run_full_pre_processing_pipeline
      no_rounding to_csv_ok normalization_id NdArray griddata_blank knn_blank
      (snd (sonar_sub ping_5 posed_node))
    = (Ok tt, n') /\
    buffer_unprocessed_swaths n' = [].
Proof.
  destruct (tick_before_first_altitude
              no_rounding to_csv_ok normalization_id NdArray
              griddata_blank knn_blank
              (snd (sonar_sub ping_5 posed_node)) 0%nat []
              (ping_swath ping_5 posed_node)
              (decode (data_zero ping_5)) (decode (data_one ping_5)))
    as (n' & c & _ & _ & _ & Ht & Hq & _).
  - intros x Hx. exact Hx.
  - reflexivity.
  - reflexivity.
  - reflexivity.
  - reflexivity.
  - reflexivity.
  - reflexivity.
  - reflexivity.
  - reflexivity.
  - change (ssd (snd (sonar_sub ping_5 posed_node))) with geometry60.
    rewrite sin_geometry60. lra.
  - simpl. lra.
  - simpl. lra.
  - exists n'. now split.
Defined.
